(** * Companies House scraper: parser, dedup, upsert and pagination driver

    A shallow embedding of the three scraper variants of
    [tools/companies-house-scraper]:

    - [simple_scraper.py]   (module [Simple]):  parser + run-local dedup driver,
    - [db_scraper.py]       (module [Db]):      parser + PostgreSQL upsert driver,
    - [db_scraper_fixed.py] (module [DbFixed]): the later, fixed variant of [Db].

    Text is modelled by Rocq's [string], a character being a code point
    below 256: the character classes of the regular expressions ([\d],
    [\w], [A-Z]) and of [str.strip] are Python's on these code points.
    Exceptions are explicit ([exc]); the network, the clock and the
    database faults are oracles of the run. *)

From Stdlib Require Import ZArith Ascii String List Bool Lia.
From stdpp Require Import base option list gmap strings.

Import ListNotations.
Local Open Scope string_scope.
Local Open Scope list_scope.

(** ** Python strings *)

Module Str.

Definition code (c : ascii) : nat := nat_of_ascii c.

Definition between (lo hi : nat) (c : ascii) : bool :=
  Nat.leb lo (code c) && Nat.leb (code c) hi.

Definition is_digit : ascii -> bool := between 48 57.
Definition is_upper : ascii -> bool := between 65 90.
Definition is_lower : ascii -> bool := between 97 122.

(** [\w]: the digits, the letters and the underscore, and from 128 on
    the characters that are alphanumeric: the two ordinal indicators, the
    superscript digits, the micro sign, the three fractions and the
    accented letters *)
Definition is_word (c : ascii) : bool :=
  is_digit c || is_upper c || is_lower c || Ascii.eqb c "_"
  || existsb (Nat.eqb (code c)) [170; 178; 179; 181; 185; 186; 188; 189; 190]
  || between 192 214 c || between 216 246 c || between 248 255 c.

(** the characters [str.strip()] removes: TAB LF VT FF CR, FS GS RS US,
    SPACE, NEL and the no-break space *)
Definition is_space (c : ascii) : bool :=
  between 9 13 c || between 28 31 c || Ascii.eqb c " "
  || Nat.eqb (code c) 133 || Nat.eqb (code c) 160.

Definition is_char (x : ascii) (c : ascii) : bool := Ascii.eqb x c.

(** [needle in s] *)
Fixpoint contains (needle s : string) : bool :=
  if String.prefix needle s then true
  else match s with
       | EmptyString => false
       | String _ s' => contains needle s'
       end.

(** [s.startswith(p)] *)
Definition startswith (p s : string) : bool := String.prefix p s.

Fixpoint lstrip (s : string) : string :=
  match s with
  | String c s' => if is_space c then lstrip s' else s
  | EmptyString => EmptyString
  end.

Fixpoint rstrip (s : string) : string :=
  match s with
  | String c s' =>
      match rstrip s' with
      | EmptyString => if is_space c then EmptyString else String c EmptyString
      | r => String c r
      end
  | EmptyString => EmptyString
  end.

(** [s.strip()] *)
Definition strip (s : string) : string := rstrip (lstrip s).

(** The case of the letters [a-z] and [A-Z].  The accented letters are
    left as they are: the code only looks in [s.upper()] for LIMITED, PLC
    and LLP and compares a lowered word with the English month names,
    and no letter of these is the capital or the small form of a
    character from 128 on. *)
Definition upper_char (c : ascii) : ascii :=
  if is_lower c then ascii_of_nat (code c - 32) else c.

Definition lower_char (c : ascii) : ascii :=
  if is_upper c then ascii_of_nat (code c + 32) else c.

Fixpoint map_chars (f : ascii -> ascii) (s : string) : string :=
  match s with
  | String c s' => String (f c) (map_chars f s')
  | EmptyString => EmptyString
  end.

(** [s.upper()] and [s.lower()] *)
Definition upper : string -> string := map_chars upper_char.
Definition lower : string -> string := map_chars lower_char.

(** [s[:n]] *)
Fixpoint take (n : nat) (s : string) : string :=
  match n, s with
  | S n', String c s' => String c (take n' s')
  | _, _ => EmptyString
  end.

(** [sep.join(l)] *)
Fixpoint join (sep : string) (l : list string) : string :=
  match l with
  | [] => EmptyString
  | [x] => x
  | x :: l' => x ++ sep ++ join sep l'
  end.

(** [s.split(sep)] for a one-character separator *)
Fixpoint split (sep : ascii) (s : string) : list string :=
  match s with
  | EmptyString => [EmptyString]
  | String c s' =>
      if Ascii.eqb c sep then EmptyString :: split sep s'
      else match split sep s' with
           | x :: l => String c x :: l
           | [] => [String c EmptyString]
           end
  end.

(** decimal value of a string of digits *)
Definition digit_value (c : ascii) : nat := code c - 48.

Fixpoint int_of_digits_from (acc : nat) (s : string) : nat :=
  match s with
  | String c s' => int_of_digits_from (10 * acc + digit_value c) s'
  | EmptyString => acc
  end.

Definition int_of_digits : string -> nat := int_of_digits_from 0.

End Str.

(** ** Python's [re]: a backtracking matcher

    [rmatch r s k] tries the ways [r] can match a prefix of [s], in the
    order a backtracking engine tries them (greedy quantifiers, left
    alternative first), and returns the first for which the continuation
    [k] accepts the rest. *)

Module Re.

Inductive regex : Type :=
| Eps
| Chr (p : ascii -> bool)
| Seq (r1 r2 : regex)
| Alt (r1 r2 : regex)
| Opt (r : regex)
| Plus (p : ascii -> bool).

(** the literal [s] *)
Fixpoint Lit (s : string) : regex :=
  match s with
  | EmptyString => Eps
  | String c s' => Seq (Chr (Str.is_char c)) (Lit s')
  end.

(** [r{n}] *)
Fixpoint Rep (n : nat) (r : regex) : regex :=
  match n with
  | O => Eps
  | S n' => Seq r (Rep n' r)
  end.

(** [r{n,n+m}] *)
Fixpoint UpTo (m : nat) (r : regex) : regex :=
  match m with
  | O => Eps
  | S m' => Opt (Seq r (UpTo m' r))
  end.

Definition Range (n m : nat) (r : regex) : regex := Seq (Rep n r) (UpTo (m - n) r).

(** a pattern that cannot match the empty text *)
Fixpoint consuming (r : regex) : bool :=
  match r with
  | Eps => false
  | Chr _ => true
  | Seq r1 r2 => consuming r1 || consuming r2
  | Alt r1 r2 => consuming r1 && consuming r2
  | Opt _ => false
  | Plus _ => true
  end.

Section Matcher.
Context {A : Type}.

(** the rest of a greedy [p+], one character already matched *)
Fixpoint plus_rest (p : ascii -> bool) (s : string) (k : string -> option A)
  : option A :=
  match s with
  | String c s' =>
      if p c then
        match plus_rest p s' k with
        | Some x => Some x
        | None => k s
        end
      else k s
  | EmptyString => k s
  end.

Fixpoint rmatch (r : regex) (s : string) (k : string -> option A) : option A :=
  match r with
  | Eps => k s
  | Chr p =>
      match s with
      | String c s' => if p c then k s' else None
      | EmptyString => None
      end
  | Seq r1 r2 => rmatch r1 s (fun s1 => rmatch r2 s1 k)
  | Alt r1 r2 =>
      match rmatch r1 s k with
      | Some x => Some x
      | None => rmatch r2 s k
      end
  | Opt r1 =>
      match rmatch r1 s k with
      | Some x => Some x
      | None => k s
      end
  | Plus p =>
      match s with
      | String c s' => if p c then plus_rest p s' k else None
      | EmptyString => None
      end
  end.

(** try every start position, leftmost first *)
Fixpoint scan (m : string -> option A) (s : string) : option A :=
  match m s with
  | Some x => Some x
  | None =>
      match s with
      | String _ s' => scan m s'
      | EmptyString => None
      end
  end.
End Matcher.

(** the text between two positions of one string, given as suffixes *)
Definition consumed (from rest : string) : string :=
  Str.take (String.length from - String.length rest) from.

(** [re.search(pre (grp) post, s).group(1)] *)
Definition search_group (pre grp post : regex) (s : string) : option string :=
  scan (fun s0 =>
          rmatch pre s0 (fun s1 =>
            rmatch grp s1 (fun s2 =>
              rmatch post s2 (fun _ => Some (consumed s1 s2))))) s.

(** [re.search(r, s).group()] *)
Definition search (r : regex) (s : string) : option string :=
  search_group Eps r Eps s.

End Re.

(** ** Exceptions

    A Python computation either returns a value or raises. *)

Inductive exn : Type :=
| AttributeError
| TypeError
| ValueError
| RequestException
| DatabaseError
| OperationalError
| InterfaceError.

Inductive exc (A : Type) : Type :=
| Ok (a : A)
| Raise (e : exn).

Arguments Ok {A} a.
Arguments Raise {A} e.

Definition exc_bind {A B : Type} (m : exc A) (f : A -> exc B) : exc B :=
  match m with
  | Ok a => f a
  | Raise e => Raise e
  end.

Notation "'let!' x ':=' m 'in' k" := (exc_bind m (fun x => k))
  (at level 10, x name, m at level 100, k at level 200).

(** [try: body  except Exception: return dflt] *)
Definition try_except {A : Type} (body : exc A) (dflt : A) : exc A :=
  match body with
  | Ok a => Ok a
  | Raise _ => Ok dflt
  end.

Definition raised {A : Type} (m : exc A) : bool :=
  match m with
  | Ok _ => false
  | Raise _ => true
  end.

(** ** BeautifulSoup elements *)

Module Soup.

(** an attribute value is a string, or a list of strings for the
    multi-valued attributes ([class], [rel], ...) *)
Inductive attr_value : Type :=
| AttrStr (s : string)
| AttrList (l : list string).

#[warnings="-register-all"] Inductive element : Type :=
| Tag (name : string) (attrs : gmap string attr_value) (children : list element)
| NavigableString (s : string).

(** all elements below [e], in document order *)
Fixpoint descendants (e : element) : list element :=
  match e with
  | Tag _ _ cs =>
      (fix below (l : list element) : list element :=
         match l with
         | [] => []
         | c :: l' => c :: descendants c ++ below l'
         end) cs
  | NavigableString _ => []
  end.

(** [e.text]: the strings below [e], concatenated *)
Fixpoint text (e : element) : string :=
  match e with
  | Tag _ _ cs =>
      (fix below (l : list element) : string :=
         match l with
         | [] => EmptyString
         | c :: l' => String.append (text c) (below l')
         end) cs
  | NavigableString s => s
  end.

Definition attrs_of (e : element) : gmap string attr_value :=
  match e with
  | Tag _ a _ => a
  | NavigableString _ => ∅
  end.

(** [e.get(key)] *)
Definition get (key : string) (e : element) : option attr_value :=
  attrs_of e !! key.

(** [x in l] for a list of strings *)
Definition mem (x : string) (l : list string) : bool :=
  existsb (String.eqb x) l.

(** the [class_=c] filter of [find] / [find_all] *)
Definition has_class (c : string) (e : element) : bool :=
  match get "class" e with
  | Some (AttrList l) => mem c l || String.eqb (Str.join " " l) c
  | Some (AttrStr s) => String.eqb s c
  | None => false
  end.

Definition is_tag (name : string) (e : element) : bool :=
  match e with
  | Tag n _ _ => String.eqb n name
  | NavigableString _ => false
  end.

(** [e.find_all(name)] and [e.find_all(name, class_=c)] *)
Definition find_all (name : string) (e : element) : list element :=
  List.filter (is_tag name) (descendants e).

Definition find_all_class (name c : string) (e : element) : list element :=
  List.filter (fun x => is_tag name x && has_class c x) (descendants e).

(** [e.find(name)] and [e.find(name, class_=c)]: the first one, or [None] *)
Definition find (name : string) (e : element) : option element :=
  head (find_all name e).

Definition find_class (name c : string) (e : element) : option element :=
  head (find_all_class name c e).

End Soup.

(** ** Dates: [datetime.strptime(s, '%d %B %Y').date()] *)

Module Date.

Record date : Type := mkdate { year : nat; month : nat; day : nat }.

Definition month_names : list string :=
  [ "january"; "february"; "march"; "april"; "may"; "june"; "july";
    "august"; "september"; "october"; "november"; "december" ].

Fixpoint index_of (x : string) (l : list string) (i : nat) : option nat :=
  match l with
  | [] => None
  | y :: l' => if String.eqb x y then Some i else index_of x l' (S i)
  end.

(** [%B], matched case-insensitively *)
Definition month_of_name (w : string) : option nat :=
  index_of (Str.lower w) month_names 1.

Definition is_leap (y : nat) : bool :=
  (Nat.eqb (y mod 4) 0 && negb (Nat.eqb (y mod 100) 0)) || Nat.eqb (y mod 400) 0.

Definition days_in_month (y m : nat) : nat :=
  match m with
  | 2 => if is_leap y then 29 else 28
  | 4 | 6 | 9 | 11 => 30
  | _ => 31
  end.

Fixpoint all_chars (p : ascii -> bool) (s : string) : bool :=
  match s with
  | String c s' => p c && all_chars p s'
  | EmptyString => true
  end.

(** [strptime] raises [ValueError] when the text is not a day of the
    month (1..31, one or two digits), a full English month name and a
    four-digit year, or when that day does not exist. *)
Definition strptime_dBY (s : string) : exc date :=
  match Str.split " " s with
  | [d; b; y] =>
      let dn := Str.int_of_digits d in
      let yn := Str.int_of_digits y in
      match month_of_name b with
      | Some mn =>
          if all_chars Str.is_digit d && Nat.leb 1 (String.length d)
             && Nat.leb (String.length d) 2
             && all_chars Str.is_digit y && Nat.eqb (String.length y) 4
             && Nat.leb 1 dn && Nat.leb dn (days_in_month yn mn) && Nat.leb 1 yn
          then Ok (mkdate yn mn dn)
          else Raise ValueError
      | None => Raise ValueError
      end
  | _ => Raise ValueError
  end.

End Date.

(** ** The candidate record

    The parsers build a Python dict with a fixed set of keys; a key that
    was never set reads as [None] through [dict.get]. *)

Inductive date_value : Type :=
| DateText (s : string)          (* simple_scraper keeps the matched text *)
| DateOf (d : Date.date).        (* the db scrapers keep a [date] *)

Record company : Type := mkcompany {
  company_name : string;
  company_number : string;
  company_url : string;
  company_status : option string;
  scraped_at : Z;
  date_of_creation : option date_value;
  company_type : option string;
  address : option string;
  postal_code : option string;
  sector_keyword : option string
}.

(** an optional text field holds a value: it is set, and not to [''] *)
Definition supplied (v : option string) : bool :=
  match v with
  | Some (String _ _) => true
  | _ => false
  end.

Definition set_company_number (v : string) (c : company) : company :=
  mkcompany (company_name c) v (company_url c) (company_status c) (scraped_at c)
    (date_of_creation c) (company_type c) (address c) (postal_code c) (sector_keyword c).

Definition set_company_status (v : string) (c : company) : company :=
  mkcompany (company_name c) (company_number c) (company_url c) (Some v) (scraped_at c)
    (date_of_creation c) (company_type c) (address c) (postal_code c) (sector_keyword c).

Definition set_date_of_creation (v : date_value) (c : company) : company :=
  mkcompany (company_name c) (company_number c) (company_url c) (company_status c)
    (scraped_at c) (Some v) (company_type c) (address c) (postal_code c) (sector_keyword c).

Definition set_company_type (v : string) (c : company) : company :=
  mkcompany (company_name c) (company_number c) (company_url c) (company_status c)
    (scraped_at c) (date_of_creation c) (Some v) (address c) (postal_code c) (sector_keyword c).

Definition set_address (v : string) (c : company) : company :=
  mkcompany (company_name c) (company_number c) (company_url c) (company_status c)
    (scraped_at c) (date_of_creation c) (company_type c) (Some v) (postal_code c) (sector_keyword c).

Definition set_postal_code (v : string) (c : company) : company :=
  mkcompany (company_name c) (company_number c) (company_url c) (company_status c)
    (scraped_at c) (date_of_creation c) (company_type c) (address c) (Some v) (sector_keyword c).

Definition set_sector_keyword (v : string) (c : company) : company :=
  mkcompany (company_name c) (company_number c) (company_url c) (company_status c)
    (scraped_at c) (date_of_creation c) (company_type c) (address c) (postal_code c) (Some v).

(** ** What the three parsers share *)

Module Patterns.
Import Re.

Definition base_url : string :=
  "https://find-and-update.company-information.service.gov.uk".

Definition upper_or_digit (c : ascii) : bool := Str.is_upper c || Str.is_digit c.

Definition digit : regex := Chr Str.is_digit.
Definition upper : regex := Chr Str.is_upper.
Definition space : regex := Chr (Str.is_char " ").

(** [re.search(r'/company/([A-Z0-9]+)', url)], group 1 *)
Definition company_number_match (url : string) : option string :=
  search_group (Lit "/company/") (Plus upper_or_digit) Eps url.

(** [re.search(r'Incorporated on (\d{1,2} \w+ \d{4})', text)], group 1 *)
Definition date_match (text : string) : option string :=
  search_group (Lit "Incorporated on ")
    (Seq (Range 1 2 digit) (Seq space (Seq (Plus Str.is_word) (Seq space (Rep 4 digit)))))
    Eps text.

(** [re.search(r'(\d{8}|\d{7}[A-Z]{2})', text)], group 1 *)
Definition number_match (text : string) : option string :=
  search_group Eps (Alt (Rep 8 digit) (Seq (Rep 7 digit) (Rep 2 upper))) Eps text.

(** [re.search(r'[A-Z]{1,2}\d[A-Z\d]? ?\d[A-Z]{2}', text)], the whole match *)
Definition postal_match (text : string) : option string :=
  search
    (Seq (Range 1 2 upper)
       (Seq digit
          (Seq (Opt (Chr upper_or_digit))
             (Seq (Opt space) (Seq digit (Rep 2 upper))))))
    text.

(** [company_link.get('href', '')] *)
Definition href (company_link : Soup.element) : Soup.attr_value :=
  default (Soup.AttrStr "") (Soup.get "href" company_link).

(** [detail.text.strip()] *)
Definition stripped_text (detail : Soup.element) : string :=
  Str.strip (Soup.text detail).

(** the [if / elif / elif] chain over the entity-type phrases *)
Definition type_phrase (text : string) : option string :=
  if Str.contains "Private limited Company" text then Some "ltd"
  else if Str.contains "Public limited Company" text then Some "plc"
  else if Str.contains "Limited liability partnership" text then Some "llp"
  else None.

Definition set_type_from_text (text : string) (c : company) : company :=
  match type_phrase text with
  | Some t => set_company_type t c
  | None => c
  end.






(** the date block of the db scrapers: [strptime] inside [try / except: pass] *)
Definition set_date_parsed (text : string) (c : company) : company :=
  match date_match text with
  | Some date_str =>
      match Date.strptime_dBY date_str with
      | Ok d => set_date_of_creation (DateOf d) c
      | Raise _ => c
      end
  | None => c
  end.

Definition set_postal_from (text : string) (c : company) : company :=
  match postal_match text with
  | Some p => set_postal_code p c
  | None => c
  end.

End Patterns.

(** ** The world of one run

    What the code cannot decide is an oracle of the run: the answer to
    the n-th HTTP request, the clock read while the i-th result of that
    answer is parsed, whether the database can be connected to, and, for
    the k-th statement sent to it, whether it fails and what
    [CURRENT_TIMESTAMP] is. *)

Inductive fault : Type :=
| NoFault
| ExecuteFails          (* [cur.execute] raises, the connection stays open *)
| CommitFails           (* [conn.commit] raises, the connection stays open *)
| ConnectionLost.       (* the connection is lost while the statement runs:
                           [cur.execute] raises, and so does every later
                           call on the connection, [conn.rollback] too *)

Record world : Type := mkworld {
  http : nat -> string -> nat -> exc Soup.element;
  clock : nat -> nat -> Z;
  db_connects : bool;               (* whether [psycopg2.connect] returns *)
  db_fault : nat -> fault;
  db_now : nat -> Z
}.

(** what a driver does, in the order it does it *)
Inductive event : Type :=
| Fetched (n : nat) (sector : string) (page : nat) (companies : list company)
| Saved (k : nat) (c : company) (ok : bool)
| Sleep (seconds : nat).

(** a request, with the candidates [search_companies] made of its answer *)
Record request : Type := mkrequest {
  req_no : nat;
  req_sector : string;
  req_page : nat;
  req_companies : list company
}.

Definition request_of (ev : event) : option request :=
  match ev with
  | Fetched n s p cs => Some (mkrequest n s p cs)
  | _ => None
  end.

(** the requests of a trace, oldest first; the trace itself is newest first *)
Definition requests (trace : list event) : list request :=
  rev (omap request_of trace).

Definition save_of (ev : event) : option (company * bool) :=
  match ev with
  | Saved _ c ok => Some (c, ok)
  | _ => None
  end.

(** the upsert calls of a trace, oldest first *)
Definition saves (trace : list event) : list (company * bool) :=
  rev (omap save_of trace).

(** the number of upsert calls made for one registry identifier *)
Definition upsert_calls (id : string) (trace : list event) : nat :=
  length (List.filter (fun x => String.eqb (company_number (fst x)) id) (saves trace)).

(** the number of upsert calls that reported success *)
Definition saved_count (trace : list event) : nat :=
  length (List.filter snd (saves trace)).

(** the candidates of a request as the driver hands them on *)
Definition handed_on (r : request) : list company :=
  map (set_sector_keyword (req_sector r)) (req_companies r).

(** one visit of a sector: requests for the pages [page], [page + 1], ...
    of it, at most [left] of them, each but the last with candidates, and
    going on for as long as there are *)
Fixpoint visit (sector_name : string) (page left : nat) (l : list request) : Prop :=
  match l with
  | [] => left = 0
  | r :: l' =>
      match left with
      | O => False
      | S left' =>
          req_sector r = sector_name /\ req_page r = page
          /\ match req_companies r with
             | [] => l' = []
             | _ :: _ => visit sector_name (S page) left' l'
             end
      end
  end.

(** a visit that may have been cut short, by an exception that ended the
    run: requests for the pages [page], [page + 1], ... of a sector, at
    most [left] of them, each but the last with candidates *)
Fixpoint visit_begun (sector_name : string) (page left : nat) (l : list request)
  {struct l} : Prop :=
  match l with
  | [] => True
  | r :: l' =>
      match left with
      | O => False
      | S left' =>
          req_sector r = sector_name /\ req_page r = page
          /\ match req_companies r with
             | [] => l' = []
             | _ :: _ => visit_begun sector_name (S page) left' l'
             end
      end
  end.

(** [search_companies], given the parser of the variant *)
Section Search.
Variable parse_company_result : Z -> Soup.element -> exc (option company).
Variable w : world.

(** [for result in results: ... companies.append(company_data)] *)
Fixpoint parse_results (n i : nat) (results : list Soup.element)
  : exc (list company) :=
  match results with
  | [] => Ok []
  | result :: rest =>
      let! company_data := parse_company_result (clock w n i) result in
      let! companies := parse_results n (S i) rest in
      Ok (match company_data with
          | Some c => c :: companies
          | None => companies
          end)
  end.

Definition search_body (n : nat) (query : string) (page : nat) : exc (list company) :=
  let! soup := http w n query page in
  parse_results n 0 (Soup.find_all_class "li" "type-company" soup).

(** [except Exception: return []] *)
Definition search_companies (n : nat) (query : string) (page : nat)
  : exc (list company) :=
  try_except (search_body n query page) [].

(** the list the caller gets *)
Definition search_result (n : nat) (query : string) (page : nat) : list company :=
  match search_companies n query page with
  | Ok companies => companies
  | Raise _ => []
  end.
End Search.

(** the requests of a run are one visit per sector, in order *)
Definition visits_of (max_pages : nat) (sectors : list string) (reqs : list request)
  : Prop :=
  exists visits,
    reqs = concat visits
    /\ Forall2 (fun s v => visit s 1 max_pages v) sectors visits.

(** the requests of a run that may have been cut short: a visit per
    sector, in order, the visits from some point on cut short or not
    begun *)
Definition visits_begun (max_pages : nat) (sectors : list string)
    (reqs : list request) : Prop :=
  exists visits,
    reqs = concat visits
    /\ Forall2 (fun s v => visit_begun s 1 max_pages v) sectors visits.

(** every request carries what [search_companies] made of its answer *)
Definition answered (parse_company_result : Z -> Soup.element -> exc (option company))
    (w : world) (reqs : list request) : Prop :=
  forall r, In r reqs ->
    req_companies r
    = search_result parse_company_result w (req_no r) (req_sector r) (req_page r).

(** what the pagination of a run has to look like, given its requests
    (oldest first) *)
Definition pagination_ok (parse_company_result : Z -> Soup.element -> exc (option company))
    (w : world) (sectors : list string) (max_pages : nat) (reqs : list request) : Prop :=
  (* the page cap *)
  (forall r, In r reqs -> 1 <= req_page r <= max_pages)
  (* a request is for one of the sectors, and its candidates are what
     [search_companies] made of the answer *)
  /\ (forall r, In r reqs ->
        In (req_sector r) sectors
        /\ req_companies r
           = search_result parse_company_result w (req_no r) (req_sector r) (req_page r))
  (* a failed fetch counts as a page without candidates *)
  /\ (forall r, In r reqs ->
        raised (http w (req_no r) (req_sector r) (req_page r)) = true ->
        req_companies r = [])
  (* after a page without candidates the next request, if any, is for a first page *)
  /\ (forall before r next after,
        reqs = before ++ r :: next :: after ->
        req_companies r = [] -> req_page next = 1)
  (* with distinct sectors: once page n of a sector came without
     candidates, page n + 1 of that sector is never requested *)
  /\ (NoDup sectors ->
      forall r r', In r reqs -> In r' reqs ->
        req_companies r = [] ->
        req_sector r' = req_sector r -> req_page r' <> S (req_page r)).

(** ** The [scraped_companies] table behind a psycopg2 connection *)

Module Pg.

Record row : Type := mkrow {
  id : nat;
  name : string;
  type_ : option string;
  status : string;
  creation : option date_value;
  addr : option string;
  postal : option string;
  sector : option string;
  url : string;
  scraped : Z;
  data_source : string;
  last_checked_at : Z;
  updated_at : Z
}.

(** the table is keyed by its unique column [company_number] *)
Record connection : Type := mkconn {
  committed : gmap string row;
  pending : option (gmap string row);      (* the open transaction, if any *)
  next_id : nat                            (* the [id] sequence *)
}.

(** the view statements of this connection act on *)
Definition view (conn : connection) : gmap string row :=
  default (committed conn) (pending conn).

(** Modelled from the spec: what [last_checked_at] and [updated_at] are
    on insert ("timestamps set to now"); the table definition of the db
    scrapers, with the defaults of these columns, is not among the
    sources. *)
Definition inserted_timestamp (now : Z) : Z := now.

(** the [VALUES (...)] row, with the [id] the sequence gives it *)
Definition values (now : Z) (new_id : nat) (c : company) : row :=
  mkrow new_id (company_name c) (company_type c)
    (default "active" (company_status c))
    (date_of_creation c) (address c) (postal_code c) (sector_keyword c)
    (company_url c) (scraped_at c) "companies_house"
    (inserted_timestamp now) (inserted_timestamp now).

(** [COALESCE(a, b)] *)
Definition coalesce {A : Type} (a b : option A) : option A :=
  match a with
  | Some _ => a
  | None => b
  end.

(** [INSERT ... ON CONFLICT (company_number) DO UPDATE SET ...],
    given the [SET] clause as a function of [CURRENT_TIMESTAMP], the
    excluded row and the stored row *)
Definition insert_on_conflict (do_update : Z -> row -> row -> row)
    (now : Z) (new_id : nat) (c : company) (t : gmap string row) : gmap string row :=
  let excluded := values now new_id c in
  match t !! company_number c with
  | None => <[company_number c := excluded]> t
  | Some stored => <[company_number c := do_update now excluded stored]> t
  end.

(** [r'] differs from [r] at most in the name, the address, the postal
    code and the two timestamps *)
Definition same_frame (r r' : row) : Prop :=
  type_ r' = type_ r
  /\ creation r' = creation r
  /\ sector r' = sector r
  /\ id r' = id r
  /\ status r' = status r
  /\ url r' = url r
  /\ scraped r' = scraped r
  /\ data_source r' = data_source r.

Definition commit (conn : connection) : connection :=
  mkconn (view conn) None (next_id conn).

(** [conn.rollback()] on an open connection: the open transaction is
    discarded *)
Definition rollback (conn : connection) : connection :=
  mkconn (committed conn) None (next_id conn).

(** [conn.rollback()] after a statement with the fault [f]: on a
    connection that was lost it raises *)
Definition rollback_after (f : fault) (conn : connection) : exc connection :=
  match f with
  | ConnectionLost => Raise InterfaceError
  | _ => Ok (rollback conn)
  end.

Section Save.
Variable do_update : Z -> row -> row -> row.
Variable w : world.

(** the body of the [try]: cursor, [execute], [fetchone], [commit].
    The statement always returns a row ([RETURNING id]), so
    [result is not None] holds whenever [execute] succeeds. *)
Definition save_body (k : nat) (c : company) (conn : connection)
  : connection * exc bool :=
  match db_fault w k with
  | ExecuteFails =>
      (mkconn (committed conn) (Some (view conn)) (next_id conn), Raise DatabaseError)
  | CommitFails =>
      (mkconn (committed conn)
         (Some (insert_on_conflict do_update (db_now w k) (next_id conn) c (view conn)))
         (S (next_id conn)),
       Raise DatabaseError)
  | ConnectionLost =>
      (mkconn (committed conn) None (next_id conn), Raise OperationalError)
  | NoFault =>
      (commit
         (mkconn (committed conn)
            (Some (insert_on_conflict do_update (db_now w k) (next_id conn) c (view conn)))
            (S (next_id conn))),
       Ok true)
  end.

(** [except Exception as e: logging.error(...); conn.rollback(); return False].
    The handler is inside no [try] of its own: what [conn.rollback()]
    raises leaves [save_company_to_db]. *)
Definition save_company_to_db (k : nat) (c : company) (conn : connection)
  : connection * exc bool :=
  match save_body k c conn with
  | (conn', Ok b) => (conn', Ok b)
  | (conn', Raise _) =>
      match rollback_after (db_fault w k) conn' with
      | Ok conn'' => (conn'', Ok false)
      | Raise e => (conn', Raise e)
      end
  end.

Record run_state : Type := mkstate {
  conn : connection;
  total_saved : nat;
  sector_stats : gmap string nat;
  trace : list event;            (* newest first *)
  n_requests : nat;
  n_saves : nat                  (* the statements sent so far *)
}.

Definition log (ev : event) (st : run_state) : run_state :=
  mkstate (conn st) (total_saved st) (sector_stats st) (ev :: trace st)
    (n_requests st) (n_saves st).

Definition sent (st : run_state) : run_state :=
  mkstate (conn st) (total_saved st) (sector_stats st) (trace st)
    (n_requests st) (S (n_saves st)).

(** A step of the driver leaves a state and returns or raises; an
    exception ends what follows, and the state stays as it was left. *)
Definition and_then {A B : Type} (m : run_state * exc A)
    (f : run_state -> A -> run_state * exc B) : run_state * exc B :=
  match m with
  | (st, Ok a) => f st a
  | (st, Raise e) => (st, Raise e)
  end.

(** one turn of [for company in companies]; what [save_company_to_db]
    raises is caught nowhere in [scrape_and_save] *)
Definition save_one (sector_name : string) (company : company)
    (st : run_state) (sector_count : nat) : run_state * exc nat :=
  let company := set_sector_keyword sector_name company in
  match save_company_to_db (n_saves st) company (conn st) with
  | (conn', Ok ok) =>
      (mkstate conn'
         (if ok then S (total_saved st) else total_saved st)
         (sector_stats st)
         (Saved (n_saves st) company ok :: trace st)
         (n_requests st) (S (n_saves st)),
       Ok (if ok then S sector_count else sector_count))
  | (conn', Raise e) =>
      (mkstate conn' (total_saved st) (sector_stats st) (trace st)
         (n_requests st) (S (n_saves st)),
       Raise e)
  end.

Fixpoint save_page (sector_name : string) (companies : list company)
    (st : run_state) (sector_count : nat) : run_state * exc nat :=
  match companies with
  | [] => (st, Ok sector_count)
  | company :: rest =>
      and_then (save_one sector_name company st sector_count)
        (fun st' sector_count' => save_page sector_name rest st' sector_count')
  end.

Variable parse_company_result : Z -> Soup.element -> exc (option company).

(** [for page in pages: ...] with its [break] *)
Fixpoint pages_loop (sector_name : string) (pages : list nat)
    (st : run_state) (sector_count : nat) : run_state * exc nat :=
  match pages with
  | [] => (st, Ok sector_count)
  | page :: rest =>
      let companies :=
        search_result parse_company_result w (n_requests st) sector_name page in
      let st1 :=
        mkstate (conn st) (total_saved st) (sector_stats st)
          (Fetched (n_requests st) sector_name page companies :: trace st)
          (S (n_requests st)) (n_saves st) in
      match companies with
      | [] => (st1, Ok sector_count)
      | _ :: _ =>
          and_then (save_page sector_name companies st1 sector_count)
            (fun st2 sector_count' =>
               pages_loop sector_name rest (log (Sleep 1) st2) sector_count')
      end
  end.

(** [for sector in sectors: ...] *)
Fixpoint sectors_loop (sectors : list string) (max_pages : nat) (st : run_state)
  : run_state * exc unit :=
  match sectors with
  | [] => (st, Ok tt)
  | sector_name :: rest =>
      and_then (pages_loop sector_name (seq 1 max_pages) st 0)
        (fun st1 sector_count =>
           sectors_loop rest max_pages
             (log (Sleep 2)
                (mkstate (conn st1) (total_saved st1)
                   (<[sector_name := sector_count]> (sector_stats st1))
                   (trace st1) (n_requests st1) (n_saves st1))))
  end.

(** a [SELECT] of the report: [cur.execute] raises when the statement
    fails or the connection is lost; nothing is committed *)
Definition select (st : run_state) : run_state * exc unit :=
  match db_fault w (n_saves st) with
  | ExecuteFails => (sent st, Raise DatabaseError)
  | ConnectionLost => (sent st, Raise OperationalError)
  | _ => (sent st, Ok tt)
  end.

(** the report that ends the run: the count of the active companies and
    their count by sector are read and logged.  The two [SELECT]s are
    inside the [try] of [scrape_and_save], which has a [finally] and no
    handler: what they raise leaves [scrape_and_save]. *)
Definition report (st : run_state) : run_state * exc unit :=
  and_then (select st) (fun st1 _ => select st1).

(** [scrape_and_save]: [connect_db] opens a connection, with no
    transaction yet, on the table as it stands, or raises; then the
    sectors, then the report.  [finally: conn.close()] changes nothing
    that was committed.  The state is the one the function leaves,
    whether it returns or raises. *)
Definition scrape_and_save (sectors : list string) (max_pages : nat)
    (table : gmap string row) (next : nat) : run_state * exc unit :=
  let st := mkstate (mkconn table None next) 0 ∅ [] 0 0 in
  if db_connects w then
    and_then (sectors_loop sectors max_pages st) (fun st1 _ => report st1)
  else (st, Raise OperationalError).
End Save.

(** whether the k-th statement of the run goes through *)
Definition succeeds (w : world) (k : nat) : bool :=
  match db_fault w k with
  | NoFault => true
  | _ => false
  end.

(** what [save_company_to_db] returns or raises when its statement is
    the k-th *)
Definition outcome (w : world) (k : nat) : exc bool :=
  match db_fault w k with
  | NoFault => Ok true
  | ConnectionLost => Raise InterfaceError
  | _ => Ok false
  end.

(** whether [cur.execute] returns for a statement with this fault *)
Definition answers (f : fault) : bool :=
  match f with
  | NoFault | CommitFails => true
  | _ => false
  end.

(** the flag logged for an upsert is the fate of its statement *)
Definition truthful (w : world) (ev : event) : Prop :=
  match ev with
  | Saved k _ ok => ok = succeeds w k
  | _ => True
  end.

(** from [st] the run went on to [st'], doing [new] (newest first):
    no transaction is left open, the flags are truthful, the count of
    saved candidates grew by the successes, every row that was
    committed is still there, and so is a row for every candidate
    saved on the way *)
Definition advances (w : world) (st st' : run_state) (new : list event) : Prop :=
  pending (conn st) = None
  /\ pending (conn st') = None
  /\ trace st' = new ++ trace st
  /\ Forall (truthful w) new
  /\ total_saved st' = total_saved st + saved_count new
  /\ (forall key, is_Some (committed (conn st) !! key) ->
                  is_Some (committed (conn st') !! key))
  /\ (forall c, In (c, true) (saves new) ->
                is_Some (committed (conn st') !! company_number c)).

(** what was handed to the upsert and what came back from it: the
    upserts are the candidates of the pages in their order: all of them
    when the step returned, a first part of them when it raised *)
Definition upserted_in_order {A : Type} (result : exc A) (handed : list company)
    (new : list event) : Prop :=
  exists rest,
    handed = map fst (saves new) ++ rest
    /\ match result with
       | Ok _ => rest = []
       | Raise _ => True
       end.

End Pg.

(** ** db_scraper_fixed.py *)

Module DbFixed.
Import Soup Patterns.

(** the type block: read off the company name, not the paragraph *)
Definition name_type (company_name : string) : option string :=
  if Str.contains "LIMITED" (Str.upper company_name) then
    if Str.contains "PLC" (Str.upper company_name) then Some "plc"
    else if Str.contains "LLP" (Str.upper company_name) then Some "llp"
    else Some "ltd"
  else None.

Definition set_type_from_name (company_name : string) (c : company) : company :=
  match name_type company_name with
  | Some t => set_company_type t c
  | None => c
  end.

(** [if not company_data.get('company_number')]: a second chance for the number *)
Definition set_number_if_missing (text : string) (c : company) : company :=
  if String.eqb (company_number c) "" then
    match number_match text with
    | Some n => set_company_number n c
    | None => c
    end
  else c.

Definition set_address_from (text : string) (c : company) : company :=
  if Str.contains "," text && Nat.ltb 20 (String.length text)
     && negb (Str.startswith "Matching" text)
  then set_postal_from text (set_address text c)
  else c.

Definition dissolved_marker (text : string) : bool :=
  Str.contains "Dissolved" text || Str.contains "dissolved" text.

(** [for detail in details: ...], then [return company_data] *)
Fixpoint details_loop (company_name : string) (details : list element)
    (company_data : company) : option company :=
  match details with
  | [] => Some company_data
  | detail :: rest =>
      let text := stripped_text detail in
      if dissolved_marker text then None
      else
        details_loop company_name rest
          (set_address_from text
             (set_type_from_name company_name
                (set_number_if_missing text
                   (set_date_parsed text company_data))))
  end.

(** the body of the [try] *)
Definition parse_body (now : Z) (result_element : element) : exc (option company) :=
  match result_element with
  | NavigableString s =>
      (* [str.find('h3')]: 0 is falsy, any other int has no [find] *)
      if Str.startswith "h3" s then Ok None else Raise AttributeError
  | Tag _ _ _ =>
      match find "h3" result_element with
      | None => Ok None
      | Some title_elem =>
          match find "a" title_elem with
          | None => Ok None
          | Some company_link =>
              let company_name := Str.strip (text company_link) in
              match href company_link with
              | AttrList _ => Raise TypeError          (* [re.search] on a list *)
              | AttrStr company_url =>
                  let company_number := default "" (company_number_match company_url) in
                  if String.eqb company_number "" then Ok None
                  else
                    let company_data :=
                      mkcompany company_name company_number
                        (String.append base_url company_url)
                        (Some "active") now None None None None None in
                    Ok (details_loop company_name (find_all "p" result_element)
                          company_data)
              end
          end
      end
  end.

Definition parse_company_result (now : Z) (result_element : element)
  : exc (option company) :=
  try_except (parse_body now result_element) None.

(** the link in the heading of a block, and the identifier its href yields *)
Definition heading_link (result_element : element) : option element :=
  match find "h3" result_element with
  | Some title_elem => find "a" title_elem
  | None => None
  end.

Definition registry_id (result_element : element) : option string :=
  match heading_link result_element with
  | Some company_link =>
      match href company_link with
      | AttrStr company_url => company_number_match company_url
      | AttrList _ => None
      end
  | None => None
  end.

(** the [DO UPDATE SET] clause: name, address and postal code with
    [COALESCE], and the two timestamps *)
Definition do_update (now : Z) (excluded stored : Pg.row) : Pg.row :=
  Pg.mkrow (Pg.id stored) (Pg.name excluded) (Pg.type_ stored) (Pg.status stored)
    (Pg.creation stored)
    (Pg.coalesce (Pg.addr excluded) (Pg.addr stored))
    (Pg.coalesce (Pg.postal excluded) (Pg.postal stored))
    (Pg.sector stored) (Pg.url stored) (Pg.scraped stored) (Pg.data_source stored)
    now now.

Definition save_company_to_db (w : world) (k : nat) (c : company)
    (conn : Pg.connection) : Pg.connection * exc bool :=
  Pg.save_company_to_db do_update w k c conn.

Definition scrape_and_save (w : world) (sectors : list string) (max_pages : nat)
    (table : gmap string Pg.row) (next : nat) : Pg.run_state * exc unit :=
  Pg.scrape_and_save do_update w parse_company_result sectors max_pages table next.

End DbFixed.

(** ** db_scraper.py *)

Module Db.
Import Soup Patterns.

(** ['address' in detail.get('class', []) or any(',' in line for line in text.split('\n'))] *)
Definition address_like (detail : element) (text : string) : bool :=
  match get "class" detail with
  | Some (AttrList l) => mem "address" l
  | Some (AttrStr s) => Str.contains "address" s
  | None => false
  end
  || existsb (Str.contains ",") (Str.split "010" text).

Definition set_address_from (detail : element) (text : string) (c : company) : company :=
  if address_like detail text then set_postal_from text (set_address text c) else c.

(** [for detail in details: ...], then the active check *)
Fixpoint details_loop (details : list element) (company_data : company)
  : option company :=
  match details with
  | [] =>
      match company_status company_data with
      | Some st => if String.eqb st "active" then Some company_data else None
      | None => None
      end
  | detail :: rest =>
      let text := stripped_text detail in
      if Str.contains "Active" text then
        details_loop rest
          (set_date_parsed text
             (set_address_from detail text
                (set_type_from_text text (set_company_status "active" company_data))))
      else if Str.contains "Dissolved" text then None
      else
        details_loop rest
          (set_date_parsed text
             (set_address_from detail text (set_type_from_text text company_data)))
  end.

Definition parse_body (now : Z) (result_element : element) : exc (option company) :=
  match result_element with
  | NavigableString s =>
      if Str.startswith "h3" s then Ok None else Raise AttributeError
  | Tag _ _ _ =>
      match find "h3" result_element with
      | None => Ok None
      | Some title_elem =>
          match find "a" title_elem with
          | None => Ok None
          | Some company_link =>
              let company_name := Str.strip (text company_link) in
              match href company_link with
              | AttrList _ => Raise TypeError
              | AttrStr company_url =>
                  let company_number := default "" (company_number_match company_url) in
                  let company_data :=
                    mkcompany company_name company_number
                      (String.append base_url company_url)
                      None now None None None None None in
                  Ok (details_loop (find_all "p" result_element) company_data)
              end
          end
      end
  end.

Definition parse_company_result (now : Z) (result_element : element)
  : exc (option company) :=
  try_except (parse_body now result_element) None.

(** the [DO UPDATE SET] clause: name, address and postal code from the
    excluded row, and the two timestamps *)
Definition do_update (now : Z) (excluded stored : Pg.row) : Pg.row :=
  Pg.mkrow (Pg.id stored) (Pg.name excluded) (Pg.type_ stored) (Pg.status stored)
    (Pg.creation stored)
    (Pg.addr excluded)
    (Pg.postal excluded)
    (Pg.sector stored) (Pg.url stored) (Pg.scraped stored) (Pg.data_source stored)
    now now.

Definition save_company_to_db (w : world) (k : nat) (c : company)
    (conn : Pg.connection) : Pg.connection * exc bool :=
  Pg.save_company_to_db do_update w k c conn.

Definition scrape_and_save (w : world) (sectors : list string) (max_pages : nat)
    (table : gmap string Pg.row) (next : nat) : Pg.run_state * exc unit :=
  Pg.scrape_and_save do_update w parse_company_result sectors max_pages table next.

End Db.

(** ** simple_scraper.py *)

Module Simple.
Import Soup Patterns.

(** [if detail.find('span', class_='address')] *)
Definition set_address_from (detail : element) (text : string) (c : company) : company :=
  match find_class "span" "address" detail with
  | Some _ => set_address (stripped_text detail) c
  | None => c
  end.


Definition set_date_text (text : string) (c : company) : company :=
  match date_match text with
  | Some date_str => set_date_of_creation (DateText date_str) c
  | None => c
  end.

Fixpoint details_loop (details : list element) (company_data : company)
  : option company :=
  match details with
  | [] =>
      match company_status company_data with
      | Some st => if String.eqb st "active" then Some company_data else None
      | None => None
      end
  | detail :: rest =>
      let text := stripped_text detail in
      if Str.contains "Active" text then
        details_loop rest
          (set_date_text text
             (set_address_from detail text
                (set_type_from_text text (set_company_status "active" company_data))))
      else if Str.contains "Dissolved" text then
        (* [continue]: the rest of this paragraph is skipped *)
        details_loop rest (set_company_status "dissolved" company_data)
      else
        details_loop rest
          (set_date_text text
             (set_address_from detail text (set_type_from_text text company_data)))
  end.

Definition parse_body (now : Z) (result_element : element) : exc (option company) :=
  match result_element with
  | NavigableString _ =>
      Raise TypeError           (* [str.find] takes no keyword argument *)
  | Tag _ _ _ =>
      match find_class "h3" "heading-medium" result_element with
      | None => Ok None
      | Some title_elem =>
          match find "a" title_elem with
          | None => Ok None
          | Some company_link =>
              let company_name := Str.strip (text company_link) in
              match href company_link with
              | AttrList _ => Raise TypeError
              | AttrStr company_url =>
                  let company_number := default "" (company_number_match company_url) in
                  let company_data :=
                    mkcompany company_name company_number
                      (String.append base_url company_url)
                      None now None None None None None in
                  Ok (details_loop (find_all "p" result_element) company_data)
              end
          end
      end
  end.

Definition parse_company_result (now : Z) (result_element : element)
  : exc (option company) :=
  try_except (parse_body now result_element) None.

Record run_state : Type := mkstate {
  all_companies : list company;
  seen_companies : gset string;           (* to avoid duplicates *)
  trace : list event;                     (* newest first *)
  n_requests : nat
}.

Definition log (ev : event) (st : run_state) : run_state :=
  mkstate (all_companies st) (seen_companies st) (ev :: trace st) (n_requests st).

(** one turn of [for company in companies] *)
Definition keep_one (sector_name : string) (company : company) (st : run_state)
  : run_state :=
  let number := company_number company in
  if negb (String.eqb number "") && negb (bool_decide (number ∈ seen_companies st))
  then
    mkstate (all_companies st ++ [set_sector_keyword sector_name company])
      ({[number]} ∪ seen_companies st) (trace st) (n_requests st)
  else st.

Fixpoint keep_page (sector_name : string) (companies : list company) (st : run_state)
  : run_state :=
  match companies with
  | [] => st
  | company :: rest => keep_page sector_name rest (keep_one sector_name company st)
  end.

(** the candidates handed to the dedup step so far, oldest first *)
Definition handed (st : run_state) : list company :=
  flat_map handed_on (requests (trace st)).

(** the identifiers collected so far *)
Definition collected (st : run_state) : list string :=
  map company_number (all_companies st).

(** the set [seen_companies] is the identifiers collected, each of them
    once and none empty; what was collected was handed on, and every
    identifier handed on was collected *)
Definition dedup_invariant (st : run_state) : Prop :=
  NoDup (collected st)
  /\ (forall x, x ∈ seen_companies st <-> In x (collected st))
  /\ (forall c, In c (all_companies st) ->
        company_number c <> EmptyString /\ In c (handed st))
  /\ (forall c, In c (handed st) ->
        company_number c <> EmptyString -> In (company_number c) (collected st)).

Section Run.
Variable w : world.

(** [for page in pages: ...] with its [break] *)
Fixpoint pages_loop (sector_name : string) (pages : list nat) (st : run_state)
  : run_state :=
  match pages with
  | [] => st
  | page :: rest =>
      let companies :=
        search_result parse_company_result w (n_requests st) sector_name page in
      let st1 :=
        mkstate (all_companies st) (seen_companies st)
          (Fetched (n_requests st) sector_name page companies :: trace st)
          (S (n_requests st)) in
      match companies with
      | [] => st1
      | _ :: _ =>
          pages_loop sector_name rest
            (log (Sleep 1) (keep_page sector_name companies st1))
      end
  end.

(** [for sector in sectors: ...] *)
Fixpoint sectors_loop (sectors : list string) (max_pages : nat) (st : run_state)
  : run_state :=
  match sectors with
  | [] => st
  | sector_name :: rest =>
      sectors_loop rest max_pages
        (log (Sleep 2) (pages_loop sector_name (seq 1 max_pages) st))
  end.

Definition run (sectors : list string) (max_pages : nat) : run_state :=
  sectors_loop sectors max_pages (mkstate [] ∅ [] 0).

(** [scrape_companies_by_sector] returns [all_companies] *)
Definition scrape_companies_by_sector (sectors : list string) (max_pages : nat)
  : list company :=
  all_companies (run sectors max_pages).
End Run.

End Simple.

(** ** Sample markup and worlds, for the examples *)

Module Fixtures.
Import Soup.

Definition link (href name : string) : element :=
  Tag "a" {["href" := AttrStr href]} [NavigableString name].

Definition paragraph (t : string) : element := Tag "p" ∅ [NavigableString t].

(** [<li class="type-company"><h3 class="heading-medium"><a href=..>name</a></h3><p>..</p>..</li>] *)
Definition block (href name : string) (paragraphs : list string) : element :=
  Tag "li" {["class" := AttrList ["type-company"]]}
    (Tag "h3" {["class" := AttrList ["heading-medium"]]} [link href name]
       :: map paragraph paragraphs).

Definition page (blocks : list element) : element := Tag "[document]" ∅ blocks.

Definition acme : element :=
  block "/company/01234567" " ACME WIDGETS LIMITED "
    [ "01234567 - Incorporated on 3 May 2019";
      "1 High Street, Westminster, London, SW1A 1AA" ].

Definition acme_dissolved : element :=
  block "/company/01234567" "ACME WIDGETS LIMITED"
    [ "01234567 - Dissolved on 3 May 2019";
      "1 High Street, Westminster, London, SW1A 1AA" ].

Definition no_detail_link : element :=
  block "/search/companies?q=acme" "ACME WIDGETS LIMITED" [ "Active" ].

Definition acme_active : element :=
  block "/company/01234567" "ACME WIDGETS LIMITED"
    [ "01234567 - Active - Incorporated on 3 May 2019";
      "Private limited Company";
      "1 High Street, Westminster, London, SW1A 1AA" ].

(** every request is answered with the same one-company page *)
Definition same_page_world : world :=
  mkworld (fun _ _ _ => Ok (page [acme_active])) (fun _ _ => 0%Z) true
    (fun _ => NoFault) (fun _ => 0%Z).

Definition empty_db : Pg.connection := Pg.mkconn ∅ None 1.

Definition acme_no_address : element :=
  block "/company/01234567" "ACME WIDGETS (UK) LIMITED"
    [ "01234567 - Incorporated on 3 May 2019" ].

(** what the fixed parser makes of [acme_no_address] at time 7 *)
Definition acme_no_address_candidate : company :=
  mkcompany "ACME WIDGETS (UK) LIMITED" "01234567"
    "https://find-and-update.company-information.service.gov.uk/company/01234567"
    (Some "active") 7 (Some (DateOf (Date.mkdate 2019 5 3))) (Some "ltd")
    None None None.

(** the row an earlier run left for company 01234567 *)
Definition acme_row : Pg.row :=
  Pg.mkrow 1 "ACME WIDGETS" (Some "plc") "active"
    (Some (DateOf (Date.mkdate 2019 5 3)))
    (Some "9 Old Road, Leeds, LS1 1AA") (Some "LS1 1AA") (Some "technology")
    "https://find-and-update.company-information.service.gov.uk/company/01234567"
    0 "companies_house" 0 0.

Definition acme_db : Pg.connection :=
  Pg.mkconn {["01234567" := acme_row]} None 2.

(** a company whose name says one type and whose paragraph another *)
Definition widgets_plc : element :=
  block "/company/00000001" "WIDGETS LIMITED" [ "Active"; "Public limited Company" ].


(** a paragraph that says dissolved, and a later one that says active *)
Definition restored : element :=
  block "/company/00000003" "RESTORED LIMITED"
    [ "00000003 - Dissolved on 3 May 2019"; "Active" ].

(** only the first page of a sector has results; the second fails *)
Definition one_page_world : world :=
  mkworld
    (fun _ _ p => if Nat.eqb p 1 then Ok (page [acme])
                     else Raise RequestException)
    (fun _ _ => 0%Z) true (fun _ => NoFault) (fun _ => 0%Z).

(** a world whose database rejects the first three statements: the
    first at [execute], the next two at [commit] *)
Definition failing_db_world : world :=
  mkworld (fun _ _ _ => Ok (page [acme; widgets_plc])) (fun _ _ => 0%Z) true
    (fun k => match k with
              | 0 => ExecuteFails
              | 1 | 2 => CommitFails
              | _ => NoFault
              end)
    (fun _ => 0%Z).

(** a world whose connection to the database is lost during the first
    statement *)
Definition lost_connection_world : world :=
  mkworld (fun _ _ _ => Ok (page [acme; widgets_plc])) (fun _ _ => 0%Z) true
    (fun k => match k with
              | 0 => ConnectionLost
              | _ => NoFault
              end)
    (fun _ => 0%Z).

End Fixtures.

Example contains_dissolved : Str.contains "Dissolved" "12345 - Dissolved on 1 May 2019" = true.
Proof. reflexivity. Qed.

Example strip_both : Str.strip (String "010" "  a b  ") = "a b".
Proof. reflexivity. Qed.

Example strip_no_break_space : Str.strip (String "160" (String "133" "a b ")) = "a b".
Proof. reflexivity. Qed.

Example upper_mixed : Str.upper "Acme Limited plc" = "ACME LIMITED PLC".
Proof. reflexivity. Qed.

Example strptime_leap : Date.strptime_dBY "29 February 2020" = Ok (Date.mkdate 2020 2 29).
Proof. reflexivity. Qed.

Example strptime_no_such_day : Date.strptime_dBY "31 April 2021" = Raise ValueError.
Proof. reflexivity. Qed.

(** * Facts *)

(** ** Strings *)

Section StringFacts.

Local Arguments String.append !_ _ / : simpl nomatch.

Lemma prefix_app (n b : string) : String.prefix n (String.append n b) = true.
Proof.
  induction n as [|c n IH]; simpl; [now destruct b|].
  destruct (ascii_dec c c); [exact IH | congruence].
Qed.

Lemma prefix_split (n s : string) :
  String.prefix n s = true -> exists b, s = String.append n b.
Proof.
  revert s. induction n as [|c n IH]; intros s H.
  - exists s. reflexivity.
  - destruct s as [|d s]; simpl in H; [discriminate|].
    destruct (ascii_dec c d) as [->|]; [|discriminate].
    destruct (IH _ H) as [b ->]. exists b. reflexivity.
Qed.

Lemma append_assoc (a b c : string) :
  String.append (String.append a b) c = String.append a (String.append b c).
Proof. induction a as [|x a IH]; simpl; [reflexivity | now rewrite IH]. Qed.

Lemma append_empty_r (a : string) : String.append a EmptyString = a.
Proof. induction a as [|x a IH]; simpl; [reflexivity | now rewrite IH]. Qed.

Lemma length_append (a b : string) :
  String.length (String.append a b) = String.length a + String.length b.
Proof. induction a as [|x a IH]; simpl; [reflexivity | now rewrite IH]. Qed.

Lemma contains_unfold (n s : string) :
  Str.contains n s =
  if String.prefix n s then true
  else match s with
       | EmptyString => false
       | String _ s' => Str.contains n s'
       end.
Proof. destruct s; reflexivity. Qed.

(** [needle in s] holds exactly when [s] is [a + needle + b] *)
Lemma contains_intro (n a b : string) :
  Str.contains n (String.append a (String.append n b)) = true.
Proof.
  induction a as [|x a IH].
  - simpl. rewrite contains_unfold, prefix_app. reflexivity.
  - rewrite contains_unfold. simpl String.append. cbv iota. rewrite IH.
    now destruct (String.prefix n _).
Qed.

Lemma contains_elim (n s : string) :
  Str.contains n s = true ->
  exists a b, s = String.append a (String.append n b).
Proof.
  induction s as [|x s IH]; intros H; rewrite contains_unfold in H.
  - destruct (String.prefix n EmptyString) eqn:E; [|discriminate].
    destruct (prefix_split _ _ E) as [b Hb]. exists EmptyString, b. exact Hb.
  - destruct (String.prefix n (String x s)) eqn:E.
    + destruct (prefix_split _ _ E) as [b Hb]. exists EmptyString, b. exact Hb.
    + destruct (IH H) as (a & b & ->). exists (String x a), b. reflexivity.
Qed.

Lemma lstrip_suffix (s : string) :
  exists ws, s = String.append ws (Str.lstrip s).
Proof.
  induction s as [|c s [ws IH]]; simpl.
  - exists EmptyString. reflexivity.
  - destruct (Str.is_space c).
    + exists (String c ws). simpl. now rewrite <- IH.
    + exists EmptyString. reflexivity.
Qed.

Lemma rstrip_prefix (s : string) :
  exists ws, s = String.append (Str.rstrip s) ws.
Proof.
  induction s as [|c s [ws IH]]; simpl.
  - exists EmptyString. reflexivity.
  - destruct (Str.rstrip s) as [|d r] eqn:E.
    + destruct (Str.is_space c).
      * exists (String c s). reflexivity.
      * exists s. reflexivity.
    + exists ws. simpl. simpl in IH. now rewrite <- IH.
Qed.

(** what [strip] keeps is a piece of the text *)
Lemma strip_infix (s : string) :
  exists l r, s = String.append l (String.append (Str.strip s) r).
Proof.
  destruct (lstrip_suffix s) as [l Hl].
  destruct (rstrip_prefix (Str.lstrip s)) as [r Hr].
  exists l, r. unfold Str.strip. now rewrite <- Hr.
Qed.

Lemma contains_of_strip (n s : string) :
  Str.contains n (Str.strip s) = true -> Str.contains n s = true.
Proof.
  intros H. destruct (contains_elim _ _ H) as (a & b & E).
  destruct (strip_infix s) as (l & r & Hs).
  rewrite Hs, E, !append_assoc, <- append_assoc.
  apply contains_intro.
Qed.

Lemma lstrip_keeps (a m : string) (c : ascii) :
  Str.is_space c = false ->
  exists a', Str.lstrip (String.append a (String c m)) = String.append a' (String c m).
Proof.
  intros Hc. induction a as [|x a [a' IH]]; simpl.
  - rewrite Hc. exists EmptyString. reflexivity.
  - destruct (Str.is_space x).
    + exists a'. exact IH.
    + exists (String x a). reflexivity.
Qed.

Lemma rstrip_app (a t : string) :
  Str.rstrip t <> EmptyString ->
  Str.rstrip (String.append a t) = String.append a (Str.rstrip t).
Proof.
  intros Ht. induction a as [|x a IH]; simpl; [reflexivity|].
  rewrite IH. destruct (String.append a (Str.rstrip t)) eqn:E; [|reflexivity].
  destruct a; simpl in E; [contradiction | discriminate].
Qed.

Lemma rstrip_keeps (m b : string) (c : ascii) :
  Str.is_space c = false ->
  exists b', Str.rstrip (String.append m (String c b)) = String.append m (String c b').
Proof.
  intros Hc.
  assert (H1 : Str.rstrip (String c b) = String c (Str.rstrip b)).
  { simpl. destruct (Str.rstrip b); [now rewrite Hc | reflexivity]. }
  exists (Str.rstrip b). rewrite rstrip_app; rewrite H1; [reflexivity | discriminate].
Qed.

(** a needle that neither starts nor ends with white space survives [strip] *)
Lemma contains_strip (c d : ascii) (m s : string) :
  Str.is_space c = false -> Str.is_space d = false ->
  Str.contains (String c (String.append m (String d EmptyString))) s = true ->
  Str.contains (String c (String.append m (String d EmptyString))) (Str.strip s) = true.
Proof.
  intros Hc Hd H.
  destruct (contains_elim _ _ H) as (a & b & ->).
  unfold Str.strip. simpl.
  destruct (lstrip_keeps a (String.append (String.append m (String d EmptyString)) b) c Hc)
    as [a' ->].
  rewrite append_assoc. simpl.
  replace (String.append a' (String c (String.append m (String d b))))
    with (String.append (String.append a' (String c m)) (String d b))
    by (rewrite append_assoc; reflexivity).
  destruct (rstrip_keeps (String.append a' (String c m)) b d Hd) as [b' ->].
  rewrite append_assoc. simpl.
  replace (String c (String.append m (String d b')))
    with (String.append (String c (String.append m (String d EmptyString))) b')
    by (simpl; rewrite append_assoc; reflexivity).
  apply contains_intro.
Qed.

Lemma take_nonempty (n : nat) (s : string) :
  0 < n -> s <> EmptyString -> Str.take n s <> EmptyString.
Proof. destruct n, s; simpl; intros; try lia; congruence. Qed.

End StringFacts.

(** ** The matcher only moves forward *)

Section MatcherFacts.
Context {A : Type}.
Implicit Types (k : string -> option A) (s : string) (x : A).

Lemma plus_rest_le p s k x :
  Re.plus_rest p s k = Some x ->
  exists s', k s' = Some x /\ String.length s' <= String.length s.
Proof.
  induction s as [|c s IH]; simpl; intros H.
  - exists EmptyString. split; [exact H | reflexivity].
  - destruct (p c).
    + destruct (Re.plus_rest p s k) eqn:E.
      * injection H as ->. destruct (IH eq_refl) as (s' & Hk & Hl).
        exists s'. split; [exact Hk | simpl; lia].
      * exists (String c s). split; [exact H | reflexivity].
    + exists (String c s). split; [exact H | reflexivity].
Qed.

Lemma rmatch_le r : forall s k x,
  Re.rmatch r s k = Some x ->
  exists s', k s' = Some x /\ String.length s' <= String.length s.
Proof.
  induction r as [|p|r1 IH1 r2 IH2|r1 IH1 r2 IH2|r1 IH1|p]; intros s k x H; simpl in H.
  - exists s. split; [exact H | reflexivity].
  - destruct s as [|c s]; [discriminate|]. destruct (p c); [|discriminate].
    exists s. split; [exact H | simpl; lia].
  - destruct (IH1 _ _ _ H) as (s1 & H1 & L1).
    destruct (IH2 _ _ _ H1) as (s2 & H2 & L2).
    exists s2. split; [exact H2 | lia].
  - destruct (Re.rmatch r1 s k) eqn:E.
    + injection H as ->. exact (IH1 _ _ _ E).
    + exact (IH2 _ _ _ H).
  - destruct (Re.rmatch r1 s k) eqn:E.
    + injection H as ->. exact (IH1 _ _ _ E).
    + exists s. split; [exact H | reflexivity].
  - destruct s as [|c s]; [discriminate|]. destruct (p c); [|discriminate].
    destruct (plus_rest_le _ _ _ _ H) as (s' & Hk & Hl).
    exists s'. split; [exact Hk | simpl; lia].
Qed.

Lemma rmatch_lt r : forall s k x,
  Re.consuming r = true ->
  Re.rmatch r s k = Some x ->
  exists s', k s' = Some x /\ String.length s' < String.length s.
Proof.
  induction r as [|p|r1 IH1 r2 IH2|r1 IH1 r2 IH2|r1 IH1|p];
    intros s k x Hc H; simpl in H, Hc; try discriminate.
  - destruct s as [|c s]; [discriminate|]. destruct (p c); [|discriminate].
    exists s. split; [exact H | simpl; lia].
  - apply orb_true_iff in Hc. destruct Hc as [Hc|Hc].
    + destruct (IH1 _ _ _ Hc H) as (s1 & H1 & L1).
      destruct (rmatch_le _ _ _ _ H1) as (s2 & H2 & L2).
      exists s2. split; [exact H2 | lia].
    + destruct (rmatch_le _ _ _ _ H) as (s1 & H1 & L1).
      destruct (IH2 _ _ _ Hc H1) as (s2 & H2 & L2).
      exists s2. split; [exact H2 | lia].
  - apply andb_true_iff in Hc. destruct Hc as [Hc1 Hc2].
    destruct (Re.rmatch r1 s k) eqn:E.
    + injection H as ->. exact (IH1 _ _ _ Hc1 E).
    + exact (IH2 _ _ _ Hc2 H).
  - destruct s as [|c s]; [discriminate|]. destruct (p c); [|discriminate].
    destruct (plus_rest_le _ _ _ _ H) as (s' & Hk & Hl).
    exists s'. split; [exact Hk | simpl; lia].
Qed.

Lemma scan_some (m : string -> option A) s x :
  Re.scan m s = Some x -> exists s0, m s0 = Some x.
Proof.
  induction s as [|c s IH]; simpl; intros H.
  - destruct (m EmptyString) eqn:E; [|discriminate]. exists EmptyString. congruence.
  - destruct (m (String c s)) eqn:E.
    + exists (String c s). congruence.
    + exact (IH H).
Qed.

End MatcherFacts.

(** a group that cannot match the empty text never captures it *)
Lemma search_group_nonempty (pre grp post : Re.regex) (s x : string) :
  Re.consuming grp = true ->
  Re.search_group pre grp post s = Some x -> x <> EmptyString.
Proof.
  intros Hc H. unfold Re.search_group in H.
  destruct (scan_some _ _ _ H) as (s0 & H0).
  destruct (rmatch_le _ _ _ _ H0) as (s1 & H1 & _).
  destruct (rmatch_lt _ _ _ _ Hc H1) as (s2 & H2 & L2).
  destruct (rmatch_le _ _ _ _ H2) as (s3 & H3 & _).
  injection H3 as <-. unfold Re.consumed.
  apply take_nonempty; [lia|]. destruct s1; [simpl in L2; lia | discriminate].
Qed.

Lemma company_number_match_nonempty (url n : string) :
  Patterns.company_number_match url = Some n -> n <> EmptyString.
Proof. apply search_group_nonempty. reflexivity. Qed.

Lemma postal_match_nonempty (text p : string) :
  Patterns.postal_match text = Some p -> p <> EmptyString.
Proof. apply search_group_nonempty. reflexivity. Qed.

(** ** The parser of db_scraper_fixed.py *)

Section DbFixedParser.
Import Soup Patterns.

Lemma try_except_returns {A : Type} (body : exc A) (dflt : A) :
  try_except body dflt = Ok (match body with Ok a => a | Raise _ => dflt end).
Proof. destruct body; reflexivity. Qed.

(** a paragraph with the marker ends the loop with no candidate *)
Lemma fixed_loop_dissolved (name : string) (details : list element) :
  forall (data : company) (p : element),
    In p details ->
    DbFixed.dissolved_marker (stripped_text p) = true ->
    DbFixed.details_loop name details data = None.
Proof.
  induction details as [|d rest IH]; intros data p Hin Hm; [destruct Hin|].
  simpl. destruct (DbFixed.dissolved_marker (stripped_text d)) eqn:E; [reflexivity|].
  destruct Hin as [->|Hin]; [congruence|]. eapply IH; eauto.
Qed.

(** without the marker the loop runs to its end *)
Lemma fixed_loop_returns (name : string) (details : list element) :
  forall data : company,
    (forall p, In p details -> DbFixed.dissolved_marker (stripped_text p) = false) ->
    exists c, DbFixed.details_loop name details data = Some c.
Proof.
  induction details as [|d rest IH]; intros data H; simpl.
  - eauto.
  - rewrite (H d (or_introl eq_refl)). apply IH. intros p Hp. apply H. now right.
Qed.

(** what every turn of the loop keeps, the loop keeps *)
Lemma fixed_loop_invariant (P : company -> Prop) (name : string) :
  (forall text d, P d ->
     P (DbFixed.set_address_from text
          (DbFixed.set_type_from_name name
             (DbFixed.set_number_if_missing text (set_date_parsed text d))))) ->
  forall details data c,
    P data -> DbFixed.details_loop name details data = Some c -> P c.
Proof.
  intros Hstep. induction details as [|d rest IH]; intros data c HP H; simpl in H.
  - now injection H as <-.
  - destruct (DbFixed.dissolved_marker (stripped_text d)); [discriminate|].
    eapply IH; [|exact H]. now apply Hstep.
Qed.

Lemma fixed_step_number (name text : string) (d : company) :
  company_number d <> EmptyString ->
  company_number
    (DbFixed.set_address_from text
       (DbFixed.set_type_from_name name
          (DbFixed.set_number_if_missing text (set_date_parsed text d))))
  = company_number d.
Proof.
  intros Hn.
  unfold DbFixed.set_address_from, DbFixed.set_type_from_name,
    DbFixed.set_number_if_missing, set_date_parsed, set_postal_from.
  assert (E : String.eqb (company_number d) "" = false)
    by (apply String.eqb_neq; exact Hn).
  repeat match goal with
         | |- context [match ?x with _ => _ end] => destruct x eqn:?
         end; simpl in *; try reflexivity; congruence.
Qed.

Lemma fixed_step_status (name text : string) (d : company) :
  company_status
    (DbFixed.set_address_from text
       (DbFixed.set_type_from_name name
          (DbFixed.set_number_if_missing text (set_date_parsed text d))))
  = company_status d.
Proof.
  unfold DbFixed.set_address_from, DbFixed.set_type_from_name,
    DbFixed.set_number_if_missing, set_date_parsed, set_postal_from.
  repeat match goal with
         | |- context [match ?x with _ => _ end] => destruct x eqn:?
         end; reflexivity.
Qed.

(** the parser, read through [heading_link] and [registry_id] *)
Lemma fixed_parse_no_id (now : Z) (block : element) :
  DbFixed.registry_id block = None ->
  DbFixed.parse_company_result now block = Ok None.
Proof.
  unfold DbFixed.registry_id, DbFixed.heading_link, DbFixed.parse_company_result,
    DbFixed.parse_body.
  destruct block as [n a cs|s]; [|now destruct (Str.startswith "h3" s)].
  destruct (find "h3" _) as [t|]; [|reflexivity].
  destruct (find "a" t) as [l|]; [|reflexivity].
  destruct (href l) as [u|]; [|reflexivity].
  intros ->. reflexivity.
Qed.

Lemma fixed_parse_with_id (now : Z) (block : element) (id : string) :
  DbFixed.registry_id block = Some id ->
  exists name url,
    DbFixed.parse_company_result now block =
    Ok (DbFixed.details_loop name (find_all "p" block)
          (mkcompany name id url (Some "active") now None None None None None)).
Proof.
  unfold DbFixed.registry_id, DbFixed.heading_link, DbFixed.parse_company_result,
    DbFixed.parse_body.
  destruct block as [n a cs|s]; [|discriminate].
  destruct (find "h3" _) as [t|]; [|discriminate].
  destruct (find "a" t) as [l|]; [|discriminate].
  destruct (href l) as [u|]; [|discriminate].
  intros H. rewrite H. simpl default.
  assert (E : String.eqb id "" = false).
  { apply String.eqb_neq. eapply company_number_match_nonempty; eauto. }
  rewrite E. eauto.
Qed.

End DbFixedParser.

Section DbFixedClaims.
Import Soup Patterns.

(** C3: a result block with a paragraph whose text contains the
    [Dissolved] marker anywhere yields no candidate, whatever name,
    identifier, date or address the block carries. *)
Theorem dissolved_block_yields_no_candidate (now : Z) (block p : element) :
  In p (find_all "p" block) ->
  Str.contains "Dissolved" (text p) = true ->
  DbFixed.parse_company_result now block = Ok None.
Proof.
  intros Hin Hd.
  destruct (DbFixed.registry_id block) as [id|] eqn:E.
  - destruct (fixed_parse_with_id now block id E) as (name & url & ->).
    f_equal. eapply fixed_loop_dissolved; [exact Hin|].
    unfold DbFixed.dissolved_marker, stripped_text.
    assert (Hs : Str.contains "Dissolved" (Str.strip (text p)) = true)
      by exact (contains_strip "D" "d" "issolve" (text p) eq_refl eq_refl Hd).
    rewrite Hs. reflexivity.
  - now apply fixed_parse_no_id.
Qed.

Lemma dissolved_block_yields_no_candidate_witness :
  DbFixed.parse_company_result 0 Fixtures.acme_dissolved = Ok None.
Proof.
  apply (dissolved_block_yields_no_candidate 0 Fixtures.acme_dissolved
           (Fixtures.paragraph "01234567 - Dissolved on 3 May 2019")).
  - left. reflexivity.
  - reflexivity.
Defined.

(** a candidate of the parser carries the identifier of its href *)
Lemma fixed_parse_emits_id (now : Z) (block : element) (c : company) :
  DbFixed.parse_company_result now block = Ok (Some c) ->
  company_number c <> EmptyString
  /\ DbFixed.registry_id block = Some (company_number c).
Proof.
  intros H. destruct (DbFixed.registry_id block) as [id|] eqn:E.
  - destruct (fixed_parse_with_id now block id E) as (name & url & Hp).
    rewrite Hp in H. injection H as H.
    assert (Hid : id <> EmptyString).
    { unfold DbFixed.registry_id in E.
      destruct (DbFixed.heading_link block); [|discriminate].
      destruct (href e); [|discriminate].
      eapply company_number_match_nonempty; eauto. }
    assert (company_number c = id) as ->; [|now split].
    refine (fixed_loop_invariant (fun d => company_number d = id) name _ _ _ c _ H);
      [|reflexivity].
    intros t d Hd. rewrite fixed_step_number; congruence.
  - rewrite (fixed_parse_no_id now block E) in H. discriminate.
Qed.

(** C8: a block that has a heading link and an extractable registryId
    and whose paragraphs contain neither an [Active] nor a dissolved
    marker yields a candidate, and its status is [active]. *)
Theorem status_defaults_to_active (now : Z) (block : element) (id : string) :
  DbFixed.registry_id block = Some id ->
  (forall p, In p (find_all "p" block) ->
     Str.contains "Active" (text p) = false
     /\ DbFixed.dissolved_marker (text p) = false) ->
  exists c,
    DbFixed.parse_company_result now block = Ok (Some c)
    /\ company_status c = Some "active"
    /\ company_number c = id.
Proof.
  intros E Hp.
  destruct (fixed_parse_with_id now block id E) as (name & url & Hparse).
  destruct (fixed_loop_returns name (find_all "p" block)
              (mkcompany name id url (Some "active") now None None None None None))
    as [c Hc].
  { intros p Hin. destruct (Hp p Hin) as [_ Hd].
    unfold DbFixed.dissolved_marker, stripped_text in *.
    apply orb_false_iff in Hd. destruct Hd as [H1 H2].
    apply orb_false_iff. split.
    - destruct (Str.contains "Dissolved" (Str.strip (text p))) eqn:C; [|reflexivity].
      apply contains_of_strip in C. congruence.
    - destruct (Str.contains "dissolved" (Str.strip (text p))) eqn:C; [|reflexivity].
      apply contains_of_strip in C. congruence. }
  exists c. rewrite Hparse, Hc. split; [reflexivity|].
  assert (Hid : id <> EmptyString).
  { unfold DbFixed.registry_id in E.
    destruct (DbFixed.heading_link block); [|discriminate].
    destruct (href e); [|discriminate].
    eapply company_number_match_nonempty; eauto. }
  refine (fixed_loop_invariant
            (fun d => company_status d = Some "active" /\ company_number d = id)
            name _ _ _ c _ Hc); [|split; reflexivity].
  intros t d [Hs Hn]. rewrite fixed_step_status, fixed_step_number; [auto | congruence].
Qed.

Lemma status_defaults_to_active_witness :
  exists c,
    DbFixed.parse_company_result 0 Fixtures.acme = Ok (Some c)
    /\ company_status c = Some "active"
    /\ company_number c = "01234567".
Proof.
  apply (status_defaults_to_active 0 Fixtures.acme "01234567").
  - reflexivity.
  - intros p [<-|[<-|[]]]; split; reflexivity.
Defined.

End DbFixedClaims.

(** C10: on every input element the per-block parser returns: a candidate
    or [None], and [None] whenever the extraction inside it raised. *)
Theorem parse_company_result_total (now : Z) (result_element : Soup.element) :
  DbFixed.parse_company_result now result_element
  = Ok (match DbFixed.parse_body now result_element with
        | Ok r => r
        | Raise _ => None
        end)
  /\ Simple.parse_company_result now result_element
     = Ok (match Simple.parse_body now result_element with
           | Ok r => r
           | Raise _ => None
           end)
  /\ Db.parse_company_result now result_element
     = Ok (match Db.parse_body now result_element with
           | Ok r => r
           | Raise _ => None
           end).
Proof. repeat split; apply try_except_returns. Qed.

(** the extraction does raise on malformed elements: a bare string, or a
    link whose href is a list *)
Example body_raises_on_string :
  DbFixed.parse_body 0 (Soup.NavigableString "ACME") = Raise AttributeError
  /\ DbFixed.parse_company_result 0 (Soup.NavigableString "ACME") = Ok None.
Proof. split; reflexivity. Qed.

Example body_raises_on_list_href :
  let block :=
    Soup.Tag "li" ∅
      [Soup.Tag "h3" ∅ [Soup.Tag "a" {["href" := Soup.AttrList ["/company/1"]]} []]] in
  Simple.parse_body 0 block = Ok None
  /\ DbFixed.parse_body 0 block = Raise TypeError
  /\ DbFixed.parse_company_result 0 block = Ok None.
Proof. repeat split; reflexivity. Qed.

(** ** The upsert *)

Section Upsert.
Import Soup Patterns.

(** the optional text fields of a parsed candidate are unset or non-empty *)
Lemma fixed_parse_fields_supplied (now : Z) (block : element) (c : company) :
  DbFixed.parse_company_result now block = Ok (Some c) ->
  address c <> Some EmptyString /\ postal_code c <> Some EmptyString.
Proof.
  intros H. destruct (DbFixed.registry_id block) as [id|] eqn:E.
  - destruct (fixed_parse_with_id now block id E) as (name & url & Hp).
    rewrite Hp in H. injection H as H.
    refine (fixed_loop_invariant
              (fun d => address d <> Some EmptyString /\ postal_code d <> Some EmptyString)
              name _ _ _ c _ H); [|split; discriminate].
    intros t d [Ha Hz].
    assert (Hinner :
      address (DbFixed.set_type_from_name name
                 (DbFixed.set_number_if_missing t (set_date_parsed t d))) = address d
      /\ postal_code (DbFixed.set_type_from_name name
                 (DbFixed.set_number_if_missing t (set_date_parsed t d))) = postal_code d).
    { unfold DbFixed.set_type_from_name, DbFixed.set_number_if_missing, set_date_parsed.
      repeat match goal with
             | |- context [match ?x with _ => _ end] => destruct x eqn:?
             end; split; reflexivity. }
    destruct Hinner as [Ea Ez].
    unfold DbFixed.set_address_from.
    destruct (Str.contains "," t && Nat.ltb 20 (String.length t)
              && negb (Str.startswith "Matching" t)) eqn:C.
    + apply andb_true_iff in C. destruct C as [C _].
      apply andb_true_iff in C. destruct C as [_ C].
      apply Nat.ltb_lt in C.
      unfold set_postal_from. destruct (postal_match t) as [z|] eqn:Z; simpl.
      * split.
        -- intros [= ->]. simpl in C. lia.
        -- intros [= ->]. now apply postal_match_nonempty in Z.
      * split.
        -- intros [= ->]. simpl in C. lia.
        -- congruence.
    + rewrite Ea, Ez. now split.
  - rewrite (fixed_parse_no_id now block E) in H. discriminate.
Qed.

Lemma supplied_some (v : option string) :
  v <> Some EmptyString ->
  Pg.coalesce v = fun old => if supplied v then v else old.
Proof. destruct v as [[|]|]; intros H; try reflexivity. congruence. Qed.

(** a statement that succeeds on a connection with no open transaction *)
Lemma save_no_fault (do_update : Z -> Pg.row -> Pg.row -> Pg.row) (w : world)
    (k : nat) (c : company) (conn : Pg.connection) :
  Pg.pending conn = None ->
  db_fault w k = NoFault ->
  Pg.save_company_to_db do_update w k c conn =
  (Pg.mkconn
     (Pg.insert_on_conflict do_update (db_now w k) (Pg.next_id conn) c (Pg.committed conn))
     None (S (Pg.next_id conn)),
   Ok true).
Proof.
  intros Hp Hf. unfold Pg.save_company_to_db, Pg.save_body, Pg.commit, Pg.view.
  rewrite Hf, Hp. reflexivity.
Qed.

(** a statement that fails on a connection that stays open leaves what
    was committed as it was *)
Lemma save_fault (do_update : Z -> Pg.row -> Pg.row -> Pg.row) (w : world)
    (k : nat) (c : company) (conn : Pg.connection) :
  db_fault w k <> NoFault ->
  db_fault w k <> ConnectionLost ->
  exists n,
    Pg.save_company_to_db do_update w k c conn =
    (Pg.mkconn (Pg.committed conn) None n, Ok false).
Proof.
  intros Hf Hl. unfold Pg.save_company_to_db, Pg.save_body, Pg.rollback.
  destruct (db_fault w k); try contradiction; simpl; eauto.
Qed.

(** when the connection is lost the handler raises in its turn *)
Lemma save_lost (do_update : Z -> Pg.row -> Pg.row -> Pg.row) (w : world)
    (k : nat) (c : company) (conn : Pg.connection) :
  db_fault w k = ConnectionLost ->
  Pg.save_company_to_db do_update w k c conn =
  (Pg.mkconn (Pg.committed conn) None (Pg.next_id conn), Raise InterfaceError).
Proof.
  intros Hf. unfold Pg.save_company_to_db, Pg.save_body. rewrite Hf. reflexivity.
Qed.

(** C1: when a candidate of the parser is upserted and a row with its
    registryId is stored, the stored address and postal code are
    replaced by the candidate's where the candidate supplies a
    non-empty one, and are left as they were where it does not. *)
Theorem upsert_fills_gaps (w : world) (k : nat) (now : Z) (block : element)
    (sector_name : string) (c : company) (conn : Pg.connection) (stored : Pg.row) :
  DbFixed.parse_company_result now block = Ok (Some c) ->
  Pg.pending conn = None ->
  Pg.committed conn !! company_number c = Some stored ->
  db_fault w k = NoFault ->
  exists stored',
    Pg.committed
      (fst (DbFixed.save_company_to_db w k (set_sector_keyword sector_name c) conn))
      !! company_number c = Some stored'
    /\ Pg.addr stored' = (if supplied (address c) then address c else Pg.addr stored)
    /\ Pg.postal stored'
       = (if supplied (postal_code c) then postal_code c else Pg.postal stored).
Proof.
  intros Hparse Hp Hs Hf.
  destruct (fixed_parse_fields_supplied now block c Hparse) as [Ha Hz].
  unfold DbFixed.save_company_to_db.
  rewrite (save_no_fault _ w k _ conn Hp Hf). simpl.
  unfold Pg.insert_on_conflict. simpl. rewrite Hs.
  eexists. split; [apply lookup_insert_eq|]. simpl.
  rewrite (supplied_some _ Ha), (supplied_some _ Hz). split; reflexivity.
Qed.

Lemma upsert_fills_gaps_witness :
  exists stored',
    Pg.committed
      (fst (DbFixed.save_company_to_db Fixtures.same_page_world 0
              (set_sector_keyword "technology" Fixtures.acme_no_address_candidate)
              Fixtures.acme_db))
      !! company_number Fixtures.acme_no_address_candidate = Some stored'
    /\ Pg.addr stored'
       = (if supplied (address Fixtures.acme_no_address_candidate)
          then address Fixtures.acme_no_address_candidate
          else Pg.addr Fixtures.acme_row)
    /\ Pg.postal stored'
       = (if supplied (postal_code Fixtures.acme_no_address_candidate)
          then postal_code Fixtures.acme_no_address_candidate
          else Pg.postal Fixtures.acme_row).
Proof.
  apply (upsert_fills_gaps Fixtures.same_page_world 0 7 Fixtures.acme_no_address
           "technology" Fixtures.acme_no_address_candidate
           Fixtures.acme_db Fixtures.acme_row); reflexivity.
Defined.

Lemma conflict_frame (do_update : Z -> Pg.row -> Pg.row -> Pg.row) :
  (forall now e r, Pg.same_frame r (do_update now e r)) ->
  forall (w : world) (k : nat) (c : company) (conn : Pg.connection) (stored : Pg.row),
    Pg.pending conn = None ->
    Pg.committed conn !! company_number c = Some stored ->
    exists stored',
      Pg.committed (fst (Pg.save_company_to_db do_update w k c conn))
        !! company_number c = Some stored'
      /\ Pg.same_frame stored stored'.
Proof.
  intros Hu w k c conn stored Hp Hs.
  destruct (db_fault w k) eqn:Hf.
  - rewrite (save_no_fault _ w k c conn Hp Hf). simpl.
    unfold Pg.insert_on_conflict. rewrite Hs.
    eexists. split; [apply lookup_insert_eq | apply Hu].
  - destruct (save_fault do_update w k c conn) as [n ->]; [congruence..|].
    simpl. exists stored. split; [exact Hs | repeat split].
  - destruct (save_fault do_update w k c conn) as [n ->]; [congruence..|].
    simpl. exists stored. split; [exact Hs | repeat split].
  - rewrite (save_lost do_update w k c conn Hf).
    simpl. exists stored. split; [exact Hs | repeat split].
Qed.

(** C5: an upsert that meets a stored row with the candidate's
    registryId leaves that row's entityType, incorporationDate and
    sectorKeyword as first written, and so every field other than the
    name, the address, the postal code and the two timestamps; in
    db_scraper_fixed.py and in db_scraper.py. *)
Theorem conflict_path_is_first_write_wins (w : world) (k : nat) (c : company)
    (conn : Pg.connection) (stored : Pg.row) :
  Pg.pending conn = None ->
  Pg.committed conn !! company_number c = Some stored ->
  (exists stored',
      Pg.committed (fst (DbFixed.save_company_to_db w k c conn))
        !! company_number c = Some stored'
      /\ Pg.same_frame stored stored')
  /\ (exists stored',
      Pg.committed (fst (Db.save_company_to_db w k c conn))
        !! company_number c = Some stored'
      /\ Pg.same_frame stored stored').
Proof.
  intros Hp Hs. split; apply conflict_frame; auto;
    intros; unfold Pg.same_frame; simpl; repeat split.
Qed.

Lemma conflict_path_is_first_write_wins_witness :
  exists stored',
    Pg.committed
      (fst (DbFixed.save_company_to_db Fixtures.same_page_world 0
              (mkcompany "ACME WIDGETS LIMITED" "01234567" "/company/01234567"
                 (Some "active") 7 None (Some "ltd") None None (Some "finance"))
              Fixtures.acme_db))
      !! "01234567" = Some stored'
    /\ Pg.same_frame Fixtures.acme_row stored'.
Proof.
  apply (conflict_path_is_first_write_wins Fixtures.same_page_world 0
           (mkcompany "ACME WIDGETS LIMITED" "01234567" "/company/01234567"
              (Some "active") 7 None (Some "ltd") None None (Some "finance"))
           Fixtures.acme_db Fixtures.acme_row); reflexivity.
Defined.

End Upsert.

(** ** Pagination: the shape of a run's requests *)

Section Visits.

Lemma requests_app (a b : list event) : requests (a ++ b) = requests b ++ requests a.
Proof. unfold requests. now rewrite omap_app, rev_app_distr. Qed.

Lemma saves_app (a b : list event) : saves (a ++ b) = saves b ++ saves a.
Proof. unfold saves. now rewrite omap_app, rev_app_distr. Qed.

Lemma visit_bounds (l : list request) : forall s p n,
  visit_begun s p n l ->
  forall r, In r l -> req_sector r = s /\ p <= req_page r /\ req_page r < p + n.
Proof.
  induction l as [|r0 l IH]; intros s p n H r Hin; [destruct Hin|].
  destruct n as [|n]; simpl in H; [contradiction|].
  destruct H as (Hs & Hpg & H). destruct Hin as [<-|Hin].
  - repeat split; [exact Hs | lia | lia].
  - destruct (req_companies r0).
    + subst l. destruct Hin.
    + destruct (IH _ _ _ H r Hin) as (? & ? & ?). repeat split; [assumption | lia | lia].
Qed.

Lemma visit_empty_last (l : list request) : forall s p n,
  visit_begun s p n l ->
  forall r, In r l -> req_companies r = [] ->
  forall r', In r' l -> req_page r' <= req_page r.
Proof.
  induction l as [|r0 l IH]; intros s p n H r Hin He r' Hin'; [destruct Hin|].
  destruct n as [|n]; simpl in H; [contradiction|].
  destruct H as (Hs & Hpg & H).
  destruct (req_companies r0) eqn:E0.
  - subst l. destruct Hin as [<-|[]]. destruct Hin' as [<-|[]]. lia.
  - destruct Hin as [<-|Hin]; [congruence|].
    destruct Hin' as [<-|Hin'].
    + destruct (visit_bounds _ _ _ _ H r Hin) as (_ & ? & _). lia.
    + exact (IH _ _ _ H r Hin He r' Hin').
Qed.

Lemma visit_inner (b : list request) : forall s p n r next a,
  visit_begun s p n (b ++ r :: next :: a) -> req_companies r <> [].
Proof.
  induction b as [|r0 b IH]; intros s p n r next a H; simpl in H.
  - destruct n; [contradiction|]. destruct H as (_ & _ & H).
    destruct (req_companies r); [discriminate | discriminate].
  - destruct n; [contradiction|]. destruct H as (_ & _ & H).
    destruct (req_companies r0).
    + destruct b; discriminate.
    + exact (IH _ _ _ _ _ _ H).
Qed.

Lemma visit_head (s : string) (p n : nat) (r : request) (l : list request) :
  visit_begun s p n (r :: l) -> req_page r = p.
Proof. destruct n; simpl; [contradiction | tauto]. Qed.

Lemma visit_begins (l : list request) : forall s p n,
  visit s p n l -> visit_begun s p n l.
Proof.
  induction l as [|r l IH]; intros s p n H; simpl; [exact I|].
  destruct n as [|n]; simpl in H; [contradiction|].
  destruct H as (Hs & Hpg & H). split; [exact Hs|]. split; [exact Hpg|].
  destruct (req_companies r); [exact H | now apply IH].
Qed.

Variable max_pages : nat.

Lemma visits_of_begun (sectors : list string) (reqs : list request) :
  visits_of max_pages sectors reqs -> visits_begun max_pages sectors reqs.
Proof.
  intros (visits & Hc & Hv). exists visits. split; [exact Hc|]. clear Hc.
  induction Hv as [|s v ss vs Hv _ IH]; [constructor|].
  constructor; [now apply visit_begins | exact IH].
Qed.

Lemma visits_sector (sectors : list string) (visits : list (list request)) :
  Forall2 (fun s v => visit_begun s 1 max_pages v) sectors visits ->
  forall r, In r (concat visits) ->
    In (req_sector r) sectors /\ 1 <= req_page r <= max_pages.
Proof.
  induction 1 as [|s v ss vs Hv _ IH]; intros r Hin; [destruct Hin|].
  simpl in Hin. apply in_app_or in Hin. destruct Hin as [Hin|Hin].
  - destruct (visit_bounds _ _ _ _ Hv r Hin) as (<- & ? & ?).
    split; [now left | lia].
  - destruct (IH r Hin). split; [now right | assumption].
Qed.

Lemma visits_first_page (sectors : list string) (visits : list (list request)) :
  Forall2 (fun s v => visit_begun s 1 max_pages v) sectors visits ->
  forall r l, concat visits = r :: l -> req_page r = 1.
Proof.
  induction 1 as [|s v ss vs Hv _ IH]; intros r l E; [discriminate|].
  simpl in E. destruct v as [|r0 v]; simpl in E.
  - exact (IH _ _ E).
  - injection E as -> _. exact (visit_head _ _ _ _ _ Hv).
Qed.

Lemma visits_next_first (sectors : list string) (visits : list (list request)) :
  Forall2 (fun s v => visit_begun s 1 max_pages v) sectors visits ->
  forall before r next after,
    concat visits = before ++ r :: next :: after ->
    req_companies r = [] -> req_page next = 1.
Proof.
  induction 1 as [|s v ss vs Hv Hvs IH]; intros before r next after E He.
  - destruct before; discriminate.
  - simpl in E. apply app_eq_app in E. destruct E as [l [[E1 E2]|[E1 E2]]].
    + (* the pair starts inside this visit *)
      destruct l as [|x l].
      * simpl in E2. rewrite app_nil_r in E1. subst before.
        symmetry in E2. exact (IH [] r next after E2 He).
      * injection E2 as <- E2. destruct l as [|y l].
        -- simpl in E2. symmetry in E2.
           exact (visits_first_page _ _ Hvs _ _ E2).
        -- injection E2 as <- E2. subst v.
           destruct (visit_inner _ _ _ _ _ _ _ Hv He).
    + (* the pair lies after this visit *)
      exact (IH l r next after E2 He).
Qed.

Lemma visits_never_next (sectors : list string) (visits : list (list request)) :
  Forall2 (fun s v => visit_begun s 1 max_pages v) sectors visits ->
  NoDup sectors ->
  forall r r', In r (concat visits) -> In r' (concat visits) ->
    req_companies r = [] ->
    req_sector r' = req_sector r -> req_page r' <> S (req_page r).
Proof.
  induction 1 as [|s v ss vs Hv Hvs IH]; intros Hnd r r' Hin Hin' He Hs;
    [destruct Hin|].
  apply NoDup_cons in Hnd. destruct Hnd as [Hns Hnd].
  rewrite list_elem_of_In in Hns.
  simpl in Hin, Hin'. apply in_app_or in Hin. apply in_app_or in Hin'.
  destruct Hin as [Hin|Hin], Hin' as [Hin'|Hin'].
  - pose proof (visit_empty_last _ _ _ _ Hv r Hin He r' Hin'). lia.
  - destruct (visit_bounds _ _ _ _ Hv r Hin) as (Hr & _).
    destruct (visits_sector _ _ Hvs r' Hin') as [Hr' _].
    exfalso. apply Hns. congruence.
  - destruct (visit_bounds _ _ _ _ Hv r' Hin') as (Hr' & _).
    destruct (visits_sector _ _ Hvs r Hin) as [Hr _].
    exfalso. apply Hns. congruence.
  - exact (IH Hnd r r' Hin Hin' He Hs).
Qed.

Lemma search_result_failed (parse : Z -> Soup.element -> exc (option company))
    (w : world) (n : nat) (query : string) (page : nat) :
  raised (http w n query page) = true -> search_result parse w n query page = [].
Proof.
  unfold search_result, search_companies, search_body.
  destruct (http w n query page); [discriminate | reflexivity].
Qed.

(** a run made of visits, every request answered by [search_companies],
    paginates as required *)
Lemma visits_pagination_ok (parse : Z -> Soup.element -> exc (option company))
    (w : world) (sectors : list string) (reqs : list request) :
  visits_begun max_pages sectors reqs ->
  (forall r, In r reqs ->
     req_companies r = search_result parse w (req_no r) (req_sector r) (req_page r)) ->
  pagination_ok parse w sectors max_pages reqs.
Proof.
  intros (visits & -> & Hv) Ha. unfold pagination_ok. repeat split.
  - apply (visits_sector _ _ Hv r H).
  - apply (visits_sector _ _ Hv r H).
  - apply (visits_sector _ _ Hv r H).
  - now apply Ha.
  - intros r Hin Hr. rewrite (Ha r Hin). now apply search_result_failed.
  - exact (visits_next_first _ _ Hv).
  - exact (visits_never_next _ _ Hv).
Qed.

End Visits.

(** ** The driver of simple_scraper.py *)

Section SimpleDriver.
Variable w : world.

Lemma answered_app parse (a b : list request) :
  answered parse w a -> answered parse w b -> answered parse w (a ++ b).
Proof. intros Ha Hb r Hin. apply in_app_or in Hin. destruct Hin; auto. Qed.

Lemma answered_nil parse : answered parse w [].
Proof. intros r []. Qed.

Lemma simple_keep_page_trace (sector_name : string) (companies : list company) :
  forall st,
    Simple.trace (Simple.keep_page sector_name companies st) = Simple.trace st
    /\ Simple.n_requests (Simple.keep_page sector_name companies st)
       = Simple.n_requests st.
Proof.
  induction companies as [|c cs IH]; intros st; simpl; [split; reflexivity|].
  destruct (IH (Simple.keep_one sector_name c st)) as [-> ->].
  unfold Simple.keep_one.
  destruct (negb _ && negb _); split; reflexivity.
Qed.

Lemma simple_pages_loop_visit (sector_name : string) (n : nat) : forall p st,
  exists new,
    Simple.trace (Simple.pages_loop w sector_name (seq p n) st)
    = new ++ Simple.trace st
    /\ visit sector_name p n (requests new)
    /\ answered Simple.parse_company_result w (requests new).
Proof.
  induction n as [|n IH]; intros p st.
  - exists []. repeat split. apply answered_nil.
  - cbn [seq Simple.pages_loop].
    destruct (search_result Simple.parse_company_result w (Simple.n_requests st)
                sector_name p) as [|c cs] eqn:E.
    + exists [Fetched (Simple.n_requests st) sector_name p []]. simpl.
      repeat split. intros r [<-|[]]. simpl. now rewrite E.
    + destruct (IH (S p)
                  (Simple.log (Sleep 1)
                     (Simple.keep_page sector_name (c :: cs)
                        (Simple.mkstate (Simple.all_companies st)
                           (Simple.seen_companies st)
                           (Fetched (Simple.n_requests st) sector_name p (c :: cs)
                              :: Simple.trace st)
                           (S (Simple.n_requests st))))))
        as (new & Ht & Hv & Ha).
      destruct (simple_keep_page_trace sector_name (c :: cs)
                  (Simple.mkstate (Simple.all_companies st)
                     (Simple.seen_companies st)
                     (Fetched (Simple.n_requests st) sector_name p (c :: cs)
                        :: Simple.trace st)
                     (S (Simple.n_requests st)))) as [Hk _].
      exists (new ++ [Sleep 1; Fetched (Simple.n_requests st) sector_name p (c :: cs)]).
      split; [|split].
      * rewrite Ht. unfold Simple.log. cbn [Simple.trace]. rewrite Hk.
        cbn [Simple.trace]. now rewrite <- app_assoc.
      * rewrite requests_app. simpl. repeat split. exact Hv.
      * rewrite requests_app. apply answered_app; [|exact Ha].
        intros r [<-|[]]. simpl. now rewrite E.
Qed.

Lemma simple_sectors_loop_visits (max_pages : nat) (sectors : list string) :
  forall st,
    exists new,
      Simple.trace (Simple.sectors_loop w sectors max_pages st)
      = new ++ Simple.trace st
      /\ visits_of max_pages sectors (requests new)
      /\ answered Simple.parse_company_result w (requests new).
Proof.
  induction sectors as [|s ss IH]; intros st; simpl.
  - exists []. repeat split; [|apply answered_nil]. exists []. split; constructor.
  - destruct (simple_pages_loop_visit s max_pages 1 st) as (new1 & H1 & Hv1 & Ha1).
    destruct (IH (Simple.log (Sleep 2)
                    (Simple.pages_loop w s (seq 1 max_pages) st)))
      as (new2 & H2 & (visits & Hc & Hv2) & Ha2).
    exists (new2 ++ Sleep 2 :: new1). split; [|split].
    + rewrite H2. simpl. rewrite H1. now rewrite <- app_assoc.
    + rewrite requests_app.
      replace (requests (Sleep 2 :: new1)) with (requests new1)
        by (unfold requests; reflexivity).
      exists (requests new1 :: visits). split.
      * simpl. now rewrite Hc.
      * now constructor.
    + rewrite requests_app.
      replace (requests (Sleep 2 :: new1)) with (requests new1)
        by (unfold requests; reflexivity).
      now apply answered_app.
Qed.

Lemma simple_run_pagination (sectors : list string) (max_pages : nat) :
  pagination_ok Simple.parse_company_result w sectors max_pages
    (requests (Simple.trace (Simple.run w sectors max_pages))).
Proof.
  unfold Simple.run.
  destruct (simple_sectors_loop_visits max_pages sectors (Simple.mkstate [] ∅ [] 0))
    as (new & Ht & Hv & Ha).
  rewrite Ht. simpl. rewrite app_nil_r.
  apply visits_pagination_ok; [now apply visits_of_begun | exact Ha].
Qed.

End SimpleDriver.

(** ** The driver of the db scrapers *)

Section PgDriver.
Variable do_update : Z -> Pg.row -> Pg.row -> Pg.row.
Variable w : world.
Variable parse : Z -> Soup.element -> exc (option company).

Lemma insert_on_conflict_keeps (now : Z) (new_id : nat) (c : company)
    (t : gmap string Pg.row) (key : string) :
  is_Some (t !! key) ->
  is_Some (Pg.insert_on_conflict do_update now new_id c t !! key).
Proof.
  intros H. unfold Pg.insert_on_conflict.
  destruct (decide (key = company_number c)) as [->|Hne].
  - destruct (t !! company_number c); rewrite lookup_insert_eq; eauto.
  - destruct (t !! company_number c); rewrite lookup_insert_ne; auto.
Qed.

Lemma insert_on_conflict_has (now : Z) (new_id : nat) (c : company)
    (t : gmap string Pg.row) :
  is_Some (Pg.insert_on_conflict do_update now new_id c t !! company_number c).
Proof.
  unfold Pg.insert_on_conflict.
  destruct (t !! company_number c); rewrite lookup_insert_eq; eauto.
Qed.

(** what [save_company_to_db] returns or raises is the fate of its
    statement; it raises when the connection is lost, and only then *)
Lemma pg_save_returns (k : nat) (c : company) (conn : Pg.connection) :
  Pg.pending conn = None ->
  exists conn',
    Pg.save_company_to_db do_update w k c conn = (conn', Pg.outcome w k)
    /\ Pg.pending conn' = None
    /\ (forall key, is_Some (Pg.committed conn !! key) ->
                    is_Some (Pg.committed conn' !! key))
    /\ (Pg.succeeds w k = true -> is_Some (Pg.committed conn' !! company_number c))
    /\ (Pg.succeeds w k = false -> Pg.committed conn' = Pg.committed conn).
Proof.
  intros Hp. unfold Pg.succeeds, Pg.outcome. destruct (db_fault w k) eqn:Hf.
  - rewrite (save_no_fault do_update w k c conn Hp Hf).
    eexists. split; [reflexivity|]. simpl. repeat split.
    + intros key. apply insert_on_conflict_keeps.
    + intros _. apply insert_on_conflict_has.
    + discriminate.
  - destruct (save_fault do_update w k c conn) as [n ->]; [congruence..|].
    eexists. split; [reflexivity|]. simpl. repeat split; auto. discriminate.
  - destruct (save_fault do_update w k c conn) as [n ->]; [congruence..|].
    eexists. split; [reflexivity|]. simpl. repeat split; auto. discriminate.
  - rewrite (save_lost do_update w k c conn Hf).
    eexists. split; [reflexivity|]. simpl. repeat split; auto. discriminate.
Qed.

Lemma saved_count_app (a b : list event) :
  saved_count (a ++ b) = saved_count b + saved_count a.
Proof.
  unfold saved_count. now rewrite saves_app, List.filter_app, List.length_app.
Qed.

Lemma advances_refl (st : Pg.run_state) :
  Pg.pending (Pg.conn st) = None -> Pg.advances w st st [].
Proof.
  intros Hp. unfold Pg.advances. split_and!; auto.
  all: try (unfold saved_count; simpl; lia).
  all: try (intros c []).
Qed.

Lemma advances_trans (st st1 st2 : Pg.run_state) (n1 n2 : list event) :
  Pg.advances w st st1 n1 -> Pg.advances w st1 st2 n2 ->
  Pg.advances w st st2 (n2 ++ n1).
Proof.
  intros (P0 & P1 & T1 & F1 & C1 & K1 & S1) (_ & P2 & T2 & F2 & C2 & K2 & S2).
  unfold Pg.advances. split_and!; auto.
  - rewrite T2, T1. now rewrite app_assoc.
  - apply Forall_app. now split.
  - rewrite saved_count_app. lia.
  - intros c Hin. rewrite saves_app in Hin. apply in_app_or in Hin.
    destruct Hin as [Hin|Hin]; auto.
Qed.

(** a step that only writes to the trace, the counters or the statistics *)
Lemma advances_quiet (st st' : Pg.run_state) (ev : event) :
  Pg.pending (Pg.conn st) = None ->
  Pg.conn st' = Pg.conn st ->
  Pg.total_saved st' = Pg.total_saved st ->
  Pg.trace st' = ev :: Pg.trace st ->
  save_of ev = None ->
  Pg.advances w st st' [ev].
Proof.
  intros Hp Hc Ht Htr He. unfold Pg.advances. rewrite Hc.
  split_and!; auto.
  - constructor; [|constructor]. destruct ev; try exact I. discriminate.
  - unfold saved_count, saves. simpl. rewrite He. simpl. lia.
  - unfold saves. simpl. rewrite He. intros c [].
Qed.

(** a step that leaves the table, the count and the trace as they are *)
Lemma advances_still (st st' : Pg.run_state) :
  Pg.pending (Pg.conn st) = None ->
  Pg.pending (Pg.conn st') = None ->
  Pg.committed (Pg.conn st') = Pg.committed (Pg.conn st) ->
  Pg.total_saved st' = Pg.total_saved st ->
  Pg.trace st' = Pg.trace st ->
  Pg.advances w st st' [].
Proof.
  intros Hp Hp' Hc Ht Htr. unfold Pg.advances. rewrite Hc.
  split_and!; auto.
  - unfold saved_count. simpl. lia.
  - intros c [].
Qed.

(** the upserts of two steps, one after the other *)
Lemma upserted_seq {A B : Type} (a : A) (r : exc B) (h1 h2 : list company)
    (n1 n2 : list event) :
  Pg.upserted_in_order (Ok a) h1 n1 ->
  Pg.upserted_in_order r h2 n2 ->
  Pg.upserted_in_order r (h1 ++ h2) (n2 ++ n1).
Proof.
  intros (r1 & E1 & ->) (r2 & E2 & H2). rewrite app_nil_r in E1.
  exists r2. split; [|exact H2].
  rewrite saves_app, map_app, E1, E2. now rewrite app_assoc.
Qed.

(** the upserts of a step that raised, and what was to follow it *)
Lemma upserted_cut {A B : Type} (e : exn) (h1 h2 : list company) (n1 : list event) :
  Pg.upserted_in_order (@Raise A e) h1 n1 ->
  Pg.upserted_in_order (@Raise B e) (h1 ++ h2) n1.
Proof.
  intros (r1 & E1 & _). exists (r1 ++ h2). split; [|exact I].
  rewrite E1. now rewrite app_assoc.
Qed.

Lemma pg_save_one (sector_name : string) (c : company) (st : Pg.run_state)
    (sector_count : nat) :
  Pg.pending (Pg.conn st) = None ->
  exists st' r new,
    Pg.save_one do_update w sector_name c st sector_count = (st', r)
    /\ Pg.advances w st st' new
    /\ requests new = []
    /\ Pg.upserted_in_order r [set_sector_keyword sector_name c] new
    /\ Pg.n_requests st' = Pg.n_requests st
    /\ ((forall k, db_fault w k <> ConnectionLost) -> exists a, r = Ok a).
Proof.
  intros Hp. unfold Pg.save_one.
  destruct (pg_save_returns (Pg.n_saves st) (set_sector_keyword sector_name c)
              (Pg.conn st) Hp) as (conn' & -> & Hp' & Hk & Hs & Hn).
  destruct (Pg.outcome w (Pg.n_saves st)) as [ok|e] eqn:Ho.
  - assert (Hok : ok = Pg.succeeds w (Pg.n_saves st)).
    { unfold Pg.outcome, Pg.succeeds in *.
      destruct (db_fault w (Pg.n_saves st)); congruence. }
    eexists _, _, [Saved (Pg.n_saves st) (set_sector_keyword sector_name c) ok].
    split; [reflexivity|]. split_and!; eauto.
    + unfold Pg.advances. simpl. split_and!; auto.
      * unfold saved_count, saves. simpl. destruct ok; simpl; lia.
      * unfold saves. simpl. intros c' [E|[]]. injection E as <- E.
        apply Hs. congruence.
    + exists []. now split.
  - eexists _, _, []. split; [reflexivity|]. split_and!; auto.
    + apply advances_still; auto. simpl. apply Hn.
      unfold Pg.outcome, Pg.succeeds in *.
      now destruct (db_fault w (Pg.n_saves st)).
    + exists [set_sector_keyword sector_name c]. now split.
    + intros Hup. unfold Pg.outcome in Ho.
      destruct (db_fault w (Pg.n_saves st)) eqn:Hf; try discriminate.
      now destruct (Hup (Pg.n_saves st)).
Qed.

Lemma pg_save_page (sector_name : string) (companies : list company) :
  forall (st : Pg.run_state) (sector_count : nat),
    Pg.pending (Pg.conn st) = None ->
    exists st' r new,
      Pg.save_page do_update w sector_name companies st sector_count = (st', r)
      /\ Pg.advances w st st' new
      /\ requests new = []
      /\ Pg.upserted_in_order r (map (set_sector_keyword sector_name) companies) new
      /\ Pg.n_requests st' = Pg.n_requests st
      /\ ((forall k, db_fault w k <> ConnectionLost) -> exists a, r = Ok a).
Proof.
  induction companies as [|c cs IH]; intros st sc Hp; cbn [Pg.save_page map].
  - exists st, (Ok sc), []. split_and!; eauto.
    + now apply advances_refl.
    + exists []. now split.
  - destruct (pg_save_one sector_name c st sc Hp)
      as (st1 & r1 & n1 & -> & A1 & R1 & U1 & N1 & G1).
    destruct r1 as [sc1|e]; cbn [Pg.and_then].
    + destruct (IH st1 sc1) as (st2 & r2 & n2 & -> & A2 & R2 & U2 & N2 & G2).
      { apply A1. }
      eexists _, _, _. split; [reflexivity|]. split_and!.
      * exact (advances_trans _ _ _ _ _ A1 A2).
      * rewrite requests_app, R1, R2. reflexivity.
      * exact (upserted_seq _ _ [_] _ _ _ U1 U2).
      * congruence.
      * exact G2.
    + eexists _, _, _. split; [reflexivity|]. split_and!.
      * exact A1.
      * exact R1.
      * exact (upserted_cut e [_] _ _ U1).
      * exact N1.
      * intros Hup. destruct (G1 Hup) as [a Ha]. discriminate.
Qed.

(** what the upserts were is read off the trace's upserts alone *)
Lemma upserted_by_saves {A : Type} (r : exc A) (h : list company) (n n' : list event) :
  saves n' = saves n ->
  Pg.upserted_in_order r h n -> Pg.upserted_in_order r h n'.
Proof. intros E (rest & H1 & H2). exists rest. now rewrite E. Qed.

Lemma pg_pages_loop (sector_name : string) (n : nat) :
  forall (p : nat) (st : Pg.run_state) (sector_count : nat),
    Pg.pending (Pg.conn st) = None ->
    exists st' r new,
      Pg.pages_loop do_update w parse sector_name (seq p n) st sector_count = (st', r)
      /\ Pg.advances w st st' new
      /\ visit_begun sector_name p n (requests new)
      /\ (forall a, r = Ok a -> visit sector_name p n (requests new))
      /\ answered parse w (requests new)
      /\ Pg.upserted_in_order r (flat_map handed_on (requests new)) new
      /\ ((forall k, db_fault w k <> ConnectionLost) -> exists a, r = Ok a).
Proof.
  induction n as [|n IH]; intros p st sc Hp.
  - exists st, (Ok sc), []. split_and!; eauto.
    + now apply advances_refl.
    + exact I.
    + reflexivity.
    + apply answered_nil.
    + exists []. now split.
  - cbn [seq Pg.pages_loop].
    set (st1 := Pg.mkstate _ _ _ (Fetched _ _ _ _ :: _) _ _).
    assert (A0 : Pg.advances w st st1
                   [Fetched (Pg.n_requests st) sector_name p
                      (search_result parse w (Pg.n_requests st) sector_name p)])
      by (apply advances_quiet; auto).
    destruct (search_result parse w (Pg.n_requests st) sector_name p)
      as [|c cs] eqn:E.
    + eexists _, _, _. split; [reflexivity|]. split; [exact A0|].
      split_and!; eauto.
      * simpl. now split_and!.
      * intros _ _. simpl. now split_and!.
      * intros r [<-|[]]. simpl. now rewrite E.
      * exists []. now split.
    + destruct (pg_save_page sector_name (c :: cs) st1 sc)
        as (st2 & r2 & new2 & -> & A2 & R2 & U2 & N2 & G2); [apply A0|].
      set (f := Fetched (Pg.n_requests st) sector_name p (c :: cs)) in *.
      assert (Q0 : forall r,
                 r = mkrequest (Pg.n_requests st) sector_name p (c :: cs) ->
                 req_companies r
                 = search_result parse w (req_no r) (req_sector r) (req_page r))
        by (intros r ->; simpl; now rewrite E).
      destruct r2 as [sc2|e]; cbn [Pg.and_then].
      * assert (A3 : Pg.advances w st2 (Pg.log (Sleep 1) st2) [Sleep 1])
          by (apply advances_quiet; auto; apply A2).
        destruct (IH (S p) (Pg.log (Sleep 1) st2) sc2)
          as (st4 & r4 & new4 & -> & A4 & B4 & V4 & Q4 & U4 & G4); [apply A3|].
        eexists _, _, _. split; [reflexivity|].
        split; [exact (advances_trans _ _ _ _ _ A0
                         (advances_trans _ _ _ _ _ A2
                            (advances_trans _ _ _ _ _ A3 A4)))|].
        assert (Hreq : requests (((new4 ++ [Sleep 1]) ++ new2) ++ [f])
                       = mkrequest (Pg.n_requests st) sector_name p (c :: cs)
                           :: requests new4)
          by (rewrite !requests_app, R2; reflexivity).
        rewrite Hreq. split_and!.
        -- simpl. split_and!; auto.
        -- intros a Ha. simpl. split_and!; auto. exact (V4 a Ha).
        -- intros r [<-|Hin]; [now apply Q0 | now apply Q4].
        -- apply (upserted_by_saves _ _ (new4 ++ new2)).
           ++ rewrite !saves_app.
              change (saves [Sleep 1]) with (@nil (company * bool)).
              change (saves [f]) with (@nil (company * bool)).
              simpl. rewrite ?app_nil_r. reflexivity.
           ++ cbn [flat_map]. exact (upserted_seq sc2 _ _ _ _ _ U2 U4).
        -- exact G4.
      * eexists _, _, _. split; [reflexivity|].
        split; [exact (advances_trans _ _ _ _ _ A0 A2)|].
        assert (Hreq : requests (new2 ++ [f])
                       = [mkrequest (Pg.n_requests st) sector_name p (c :: cs)])
          by (rewrite !requests_app, R2; reflexivity).
        rewrite Hreq. split_and!.
        -- simpl. now split_and!.
        -- discriminate.
        -- intros r [<-|[]]. now apply Q0.
        -- apply (upserted_by_saves _ _ new2).
           ++ rewrite !saves_app.
              change (saves [f]) with (@nil (company * bool)).
              simpl. rewrite ?app_nil_r. reflexivity.
           ++ cbn [flat_map]. rewrite app_nil_r. exact U2.
        -- intros Hup. destruct (G2 Hup) as [a Ha]. discriminate.
Qed.

(** the sectors that were not begun *)
Lemma visits_not_begun (max_pages : nat) (sectors : list string) :
  concat (map (fun _ : string => @nil request) sectors) = []
  /\ Forall2 (fun s v => visit_begun s 1 max_pages v) sectors
       (map (fun _ : string => @nil request) sectors).
Proof.
  induction sectors as [|s ss [IH1 IH2]]; simpl; split; auto; constructor; auto.
  exact I.
Qed.

Lemma pg_sectors_loop (max_pages : nat) (sectors : list string) :
  forall st : Pg.run_state,
    Pg.pending (Pg.conn st) = None ->
    exists st' r new,
      Pg.sectors_loop do_update w parse sectors max_pages st = (st', r)
      /\ Pg.advances w st st' new
      /\ visits_begun max_pages sectors (requests new)
      /\ (r = Ok tt -> visits_of max_pages sectors (requests new))
      /\ answered parse w (requests new)
      /\ Pg.upserted_in_order r (flat_map handed_on (requests new)) new
      /\ ((forall k, db_fault w k <> ConnectionLost) -> r = Ok tt).
Proof.
  induction sectors as [|s ss IH]; intros st Hp; cbn [Pg.sectors_loop].
  - exists st, (Ok tt), []. split_and!; auto.
    + now apply advances_refl.
    + exists []. split; constructor.
    + intros _. exists []. split; constructor.
    + apply answered_nil.
    + exists []. now split.
  - destruct (pg_pages_loop s max_pages 1 st 0 Hp)
      as (st1 & r1 & new1 & -> & A1 & B1 & V1 & Q1 & U1 & G1).
    destruct r1 as [sc1|e]; cbn [Pg.and_then].
    + set (st2 := Pg.log (Sleep 2) _).
      assert (A2 : Pg.advances w st1 st2 [Sleep 2])
        by (apply advances_quiet; auto; apply A1).
      destruct (IH st2)
        as (st3 & r3 & new3 & -> & A3 & (visits & Hc & B3) & V3 & Q3 & U3 & G3);
        [apply A2|].
      eexists _, _, _. split; [reflexivity|].
      split; [exact (advances_trans _ _ _ _ _ A1 (advances_trans _ _ _ _ _ A2 A3))|].
      assert (Hreq : requests ((new3 ++ [Sleep 2]) ++ new1)
                     = requests new1 ++ requests new3)
        by (rewrite !requests_app; reflexivity).
      rewrite Hreq. split_and!.
      * exists (requests new1 :: visits).
        split; [simpl; now rewrite Hc | now constructor].
      * intros Hr. destruct (V3 Hr) as (visits' & Hc' & V').
        exists (requests new1 :: visits').
        split; [simpl; now rewrite Hc'|]. constructor; [exact (V1 sc1 eq_refl) | exact V'].
      * now apply answered_app.
      * apply (upserted_by_saves _ _ (new3 ++ new1)).
        -- rewrite !saves_app.
           change (saves [Sleep 2]) with (@nil (company * bool)).
           simpl. rewrite ?app_nil_r. reflexivity.
        -- rewrite flat_map_app. exact (upserted_seq sc1 _ _ _ _ _ U1 U3).
      * exact G3.
    + eexists _, _, _. split; [reflexivity|]. split; [exact A1|].
      destruct (visits_not_begun max_pages ss) as [N1 N2].
      split_and!.
      * exists (requests new1 :: map (fun _ : string => @nil request) ss).
        split; [simpl; now rewrite N1, app_nil_r | now constructor].
      * discriminate.
      * exact Q1.
      * destruct U1 as (rest & E1 & _). exists rest. now split.
      * intros Hup. destruct (G1 Hup) as [a Ha]. discriminate.
Qed.

(** a run of [scrape_and_save], however it ends *)
Lemma pg_run (sectors : list string) (max_pages : nat) (table : gmap string Pg.row)
    (next : nat) :
  exists st r,
    Pg.scrape_and_save do_update w parse sectors max_pages table next = (st, r)
    /\ Pg.advances w (Pg.mkstate (Pg.mkconn table None next) 0 ∅ [] 0 0) st
         (Pg.trace st)
    /\ visits_begun max_pages sectors (requests (Pg.trace st))
    /\ (r = Ok tt -> visits_of max_pages sectors (requests (Pg.trace st)))
    /\ answered parse w (requests (Pg.trace st))
    /\ Pg.upserted_in_order r (flat_map handed_on (requests (Pg.trace st)))
         (Pg.trace st)
    /\ (db_connects w = true ->
        (forall k, Pg.answers (db_fault w k) = true) -> r = Ok tt).
Proof.
  unfold Pg.scrape_and_save. cbn zeta.
  set (st0 := Pg.mkstate (Pg.mkconn table None next) 0 ∅ [] 0 0).
  destruct (db_connects w).
  - destruct (pg_sectors_loop max_pages sectors st0 eq_refl)
      as (st1 & r1 & new & -> & A & B & V & Q & U & G).
    assert (T : Pg.trace st1 = new)
      by (destruct A as (_ & _ & T & _); simpl in T; now rewrite app_nil_r in T).
    subst new.
    destruct r1 as [[]|e]; cbn [Pg.and_then].
    + assert (Hsel : exists n r,
                Pg.report w st1
                = (Pg.mkstate (Pg.conn st1) (Pg.total_saved st1) (Pg.sector_stats st1)
                     (Pg.trace st1) (Pg.n_requests st1) n, r)
                /\ ((forall k, Pg.answers (db_fault w k) = true) -> r = Ok tt)).
      { unfold Pg.report, Pg.select, Pg.sent.
        destruct (db_fault w (Pg.n_saves st1)) eqn:F1; cbn [Pg.and_then Pg.n_saves];
          try (eexists _, _; split; [reflexivity|];
               intros Ha; specialize (Ha (Pg.n_saves st1)); rewrite F1 in Ha;
               discriminate).
        all: destruct (db_fault w (S (Pg.n_saves st1))) eqn:F2;
          eexists _, _; (split; [reflexivity|]); intros Ha; try reflexivity;
          specialize (Ha (S (Pg.n_saves st1))); rewrite F2 in Ha; discriminate. }
      destruct Hsel as (n & r & Hrep & Hr). rewrite Hrep.
      eexists _, _. split; [reflexivity|]. cbn [Pg.trace]. split_and!.
      * exact A.
      * exact B.
      * intros _. now apply V.
      * exact Q.
      * destruct U as (rest & E & ->). exists []. split; [exact E|].
        now destruct r.
      * intros _. exact Hr.
    + eexists _, _. split; [reflexivity|]. split_and!.
      * exact A.
      * exact B.
      * discriminate.
      * exact Q.
      * exact U.
      * intros _ Ha. assert (Hup : forall k, db_fault w k <> ConnectionLost).
        { intros k Hk. specialize (Ha k). rewrite Hk in Ha. discriminate. }
        specialize (G Hup). discriminate.
  - exists st0, (Raise OperationalError). split; [reflexivity|].
    destruct (visits_not_begun max_pages sectors) as [N1 N2].
    split_and!.
    + now apply advances_refl.
    + exists (map (fun _ : string => @nil request) sectors). now split.
    + discriminate.
    + apply answered_nil.
    + exists []. now split.
    + discriminate.
Qed.

End PgDriver.

(** ** The dedup index of simple_scraper.py *)

Section SimpleDedup.
Variable w : world.

(** a candidate whose identifier was seen is dropped, whatever its sector *)
Lemma simple_keep_one_seen (sector_name : string) (c : company) (st : Simple.run_state) :
  company_number c ∈ Simple.seen_companies st ->
  Simple.keep_one sector_name c st = st.
Proof.
  intros H. unfold Simple.keep_one.
  rewrite (bool_decide_eq_true_2 _ H). now rewrite andb_false_r.
Qed.

(** one page through the dedup step, the page already in the trace *)
Lemma simple_keep_page_dedup (sector_name : string) (companies : list company) :
  forall (st : Simple.run_state) (pending : list company),
    NoDup (Simple.collected st) ->
    (forall x, x ∈ Simple.seen_companies st <-> In x (Simple.collected st)) ->
    (forall c, In c (Simple.all_companies st) ->
       company_number c <> EmptyString /\ In c (pending ++ map (set_sector_keyword sector_name) companies)) ->
    (forall c, In c pending ->
       company_number c <> EmptyString -> In (company_number c) (Simple.collected st)) ->
    let st' := Simple.keep_page sector_name companies st in
    NoDup (Simple.collected st')
    /\ (forall x, x ∈ Simple.seen_companies st' <-> In x (Simple.collected st'))
    /\ (forall c, In c (Simple.all_companies st') ->
          company_number c <> EmptyString
          /\ In c (pending ++ map (set_sector_keyword sector_name) companies))
    /\ (forall c, In c (pending ++ map (set_sector_keyword sector_name) companies) ->
          company_number c <> EmptyString ->
          In (company_number c) (Simple.collected st')).
Proof.
  induction companies as [|c cs IH]; intros st pend Hnd Hseen Hall Hpend; cbn zeta.
  - simpl. rewrite app_nil_r in *. auto.
  - cbn [Simple.keep_page].
    assert (Happ : forall l : list company,
              pend ++ map (set_sector_keyword sector_name) (c :: cs)
              = (pend ++ [set_sector_keyword sector_name c])
                  ++ map (set_sector_keyword sector_name) cs)
      by (intros; simpl; now rewrite <- app_assoc).
    rewrite (Happ []). rewrite (Happ []) in Hall.
    apply IH; clear IH.
    + unfold Simple.keep_one.
      destruct (String.eqb (company_number c) "") eqn:E; simpl; [exact Hnd|].
      case_bool_decide as Hin; simpl; [exact Hnd|].
      unfold Simple.collected. simpl. rewrite map_app. simpl.
      apply NoDup_app. split; [exact Hnd|]. split.
      * intros x Hx Hc. apply list_elem_of_In in Hc. destruct Hc as [Hc|[]].
        subst x. apply Hin, Hseen. now apply list_elem_of_In.
      * apply NoDup_singleton.
    + intros x. unfold Simple.keep_one.
      destruct (String.eqb (company_number c) "") eqn:E; simpl; [apply Hseen|].
      case_bool_decide as Hin; simpl; [apply Hseen|].
      unfold Simple.collected. simpl. rewrite map_app, in_app_iff. simpl.
      rewrite elem_of_union, elem_of_singleton, Hseen. unfold Simple.collected.
      intuition congruence.
    + intros c' Hc'. unfold Simple.keep_one in Hc'.
      destruct (String.eqb (company_number c) "") eqn:E; simpl in Hc'; [auto|].
      case_bool_decide as Hin; simpl in Hc'; [auto|].
      apply in_app_or in Hc'. destruct Hc' as [Hc'|[<-|[]]]; [auto|].
      split.
      * simpl. now apply String.eqb_neq.
      * apply in_or_app. left. apply in_or_app. right. now left.
    + intros c' Hc' Hne. apply in_app_or in Hc'.
      unfold Simple.keep_one.
      destruct Hc' as [Hc'|[<-|[]]].
      * specialize (Hpend c' Hc' Hne).
        destruct (negb _ && negb _); [|exact Hpend].
        unfold Simple.collected. simpl. rewrite map_app. apply in_or_app. now left.
      * simpl in Hne. apply String.eqb_neq in Hne. rewrite Hne. simpl.
        case_bool_decide as Hin; simpl.
        -- now apply Hseen.
        -- unfold Simple.collected. simpl. rewrite map_app. apply in_or_app.
           right. now left.
Qed.

Lemma handed_fetched (st : Simple.run_state) (n : nat) (s : string) (p : nat)
    (cs : list company) (evs : list event) (all : list company) (seen : gset string)
    (k : nat) :
  requests evs = [] ->
  Simple.handed (Simple.mkstate all seen (evs ++ Fetched n s p cs :: Simple.trace st) k)
  = Simple.handed st ++ map (set_sector_keyword s) cs.
Proof.
  intros He. unfold Simple.handed. simpl.
  rewrite requests_app, He, app_nil_r.
  change (Fetched n s p cs :: Simple.trace st)
    with ([Fetched n s p cs] ++ Simple.trace st).
  rewrite requests_app, flat_map_app. simpl. now rewrite app_nil_r.
Qed.

Lemma simple_pages_loop_dedup (sector_name : string) (pages : list nat) :
  forall st,
    Simple.dedup_invariant st ->
    Simple.dedup_invariant (Simple.pages_loop w sector_name pages st).
Proof.
  induction pages as [|p ps IH]; intros st H; [exact H|].
  cbn [Simple.pages_loop].
  destruct (search_result Simple.parse_company_result w (Simple.n_requests st)
              sector_name p) as [|c cs] eqn:E.
  - destruct H as (H1 & H2 & H3 & H4). unfold Simple.dedup_invariant.
    pose proof (handed_fetched st (Simple.n_requests st) sector_name p [] []
                  (Simple.all_companies st) (Simple.seen_companies st)
                  (S (Simple.n_requests st)) eq_refl) as Hh.
    cbn [app map] in Hh. rewrite app_nil_r in Hh. rewrite Hh. auto.
  - apply IH. destruct H as (H1 & H2 & H3 & H4).
    set (st1 := Simple.mkstate _ _ (Fetched _ _ _ _ :: _) _).
    destruct (simple_keep_page_dedup sector_name (c :: cs) st1 (Simple.handed st))
      as (K1 & K2 & K3 & K4); auto.
    { intros c' Hc'. destruct (H3 c' Hc'). split; [assumption|].
      apply in_or_app. now left. }
    destruct (simple_keep_page_trace sector_name (c :: cs) st1) as [Ht Hn].
    unfold Simple.dedup_invariant, Simple.log.
    assert (Hh : Simple.handed
                   (Simple.mkstate
                      (Simple.all_companies (Simple.keep_page sector_name (c :: cs) st1))
                      (Simple.seen_companies (Simple.keep_page sector_name (c :: cs) st1))
                      (Sleep 1 :: Simple.trace (Simple.keep_page sector_name (c :: cs) st1))
                      (Simple.n_requests (Simple.keep_page sector_name (c :: cs) st1)))
                 = Simple.handed st ++ map (set_sector_keyword sector_name) (c :: cs)).
    { rewrite Ht. unfold st1. cbn [Simple.trace].
      exact (handed_fetched st _ _ _ _ [Sleep 1] _ _ _ eq_refl). }
    rewrite Hh. split_and!; auto.
Qed.

Lemma simple_sectors_loop_dedup (max_pages : nat) (sectors : list string) :
  forall st,
    Simple.dedup_invariant st ->
    Simple.dedup_invariant (Simple.sectors_loop w sectors max_pages st).
Proof.
  induction sectors as [|s ss IH]; intros st H; [exact H|].
  cbn [Simple.sectors_loop]. apply IH.
  pose proof (simple_pages_loop_dedup s (seq 1 max_pages) st H) as (H1 & H2 & H3 & H4).
  unfold Simple.dedup_invariant, Simple.handed, Simple.log in *.
  cbn [Simple.trace Simple.all_companies Simple.seen_companies] in *.
  change (requests (Sleep 2 :: ?t)) with (requests t).
  auto.
Qed.

Lemma simple_run_dedup (sectors : list string) (max_pages : nat) :
  Simple.dedup_invariant (Simple.run w sectors max_pages).
Proof.
  apply simple_sectors_loop_dedup. unfold Simple.dedup_invariant. split_and!.
  - constructor.
  - intros x. unfold Simple.collected. simpl. set_solver.
  - intros c [].
  - intros c [].
Qed.

End SimpleDedup.

(** ** The drivers *)

(** C6: in both drivers a page that comes without candidates (a failed
    fetch comes without any) ends the sector: the next request, if there
    is one, is for a first page, and with distinct sectors page n + 1 of
    that sector is never requested; and no request is for a page beyond
    the page cap.  For the driver that upserts this holds of the
    requests it made however it ended, by returning or by an exception
    of the database; it returns when the database can be connected to
    and every statement gets its answer. *)
Theorem pagination_stops_at_empty_page_and_cap (w : world) (sectors : list string)
    (max_pages : nat) (table : gmap string Pg.row) (next : nat) :
  pagination_ok Simple.parse_company_result w sectors max_pages
    (requests (Simple.trace (Simple.run w sectors max_pages)))
  /\ pagination_ok DbFixed.parse_company_result w sectors max_pages
       (requests
          (Pg.trace (fst (DbFixed.scrape_and_save w sectors max_pages table next))))
  /\ (db_connects w = true ->
      (forall k, Pg.answers (db_fault w k) = true) ->
      snd (DbFixed.scrape_and_save w sectors max_pages table next) = Ok tt).
Proof.
  split; [apply simple_run_pagination|].
  unfold DbFixed.scrape_and_save.
  destruct (pg_run DbFixed.do_update w DbFixed.parse_company_result
              sectors max_pages table next) as (st & r & -> & _ & B & _ & Q & _ & G).
  split; [now apply visits_pagination_ok | exact G].
Qed.

Lemma pagination_stops_at_empty_page_and_cap_witness :
  snd (DbFixed.scrape_and_save Fixtures.one_page_world ["technology"] 5 ∅ 1) = Ok tt
  /\ forall r,
       In r (requests
               (Pg.trace
                  (fst (DbFixed.scrape_and_save Fixtures.one_page_world
                          ["technology"] 5 ∅ 1)))) ->
       req_page r <> 3.
Proof.
  destruct (pagination_stops_at_empty_page_and_cap Fixtures.one_page_world
              ["technology"] 5 ∅ 1) as (_ & Hok & Hret).
  split; [exact (Hret eq_refl (fun k => eq_refl))|].
  destruct Hok as (_ & _ & _ & _ & Hnever).
  assert (Hnd : NoDup ["technology"]) by (apply NoDup_singleton).
  assert (Hin : In (mkrequest 1 "technology" 2 [])
                  (requests
                     (Pg.trace
                        (fst (DbFixed.scrape_and_save Fixtures.one_page_world
                                ["technology"] 5 ∅ 1)))))
    by (vm_compute; right; left; reflexivity).
  intros r Hr.
  assert (Hs : req_sector r = "technology")
    by (vm_compute in Hr; destruct Hr as [<-|[<-|[]]]; reflexivity).
  exact (Hnever Hnd _ r Hin Hr eq_refl Hs).
Defined.

(** an upsert whose statement fails on a connection that stays open
    reports [False] instead of raising and leaves the committed rows as
    they were; while the connection holds the run goes on to its end:
    every candidate of every page is attempted, only those that went
    through are counted, and every row committed before or during the
    run is still there at its end *)
Lemma failure_on_an_open_connection_is_confined (w : world) (sectors : list string)
    (max_pages : nat) (table : gmap string Pg.row) (next : nat) :
  (forall k c conn,
     Pg.succeeds w k = false ->
     db_fault w k <> ConnectionLost ->
     exists conn',
       DbFixed.save_company_to_db w k c conn = (conn', Ok false)
       /\ Pg.committed conn' = Pg.committed conn
       /\ Pg.pending conn' = None)
  /\ (db_connects w = true ->
      (forall k, Pg.answers (db_fault w k) = true) ->
      snd (DbFixed.scrape_and_save w sectors max_pages table next) = Ok tt
      /\ map fst (saves (Pg.trace
                           (fst (DbFixed.scrape_and_save w sectors max_pages
                                   table next))))
         = flat_map handed_on
             (requests (Pg.trace
                          (fst (DbFixed.scrape_and_save w sectors max_pages
                                  table next)))))
  /\ Forall (Pg.truthful w)
       (Pg.trace (fst (DbFixed.scrape_and_save w sectors max_pages table next)))
  /\ Pg.total_saved (fst (DbFixed.scrape_and_save w sectors max_pages table next))
     = saved_count
         (Pg.trace (fst (DbFixed.scrape_and_save w sectors max_pages table next)))
  /\ (forall key, is_Some (table !! key) ->
        is_Some (Pg.committed
                   (Pg.conn (fst (DbFixed.scrape_and_save w sectors max_pages
                                    table next))) !! key))
  /\ (forall c,
        In (c, true)
          (saves (Pg.trace
                    (fst (DbFixed.scrape_and_save w sectors max_pages table next)))) ->
        is_Some (Pg.committed
                   (Pg.conn (fst (DbFixed.scrape_and_save w sectors max_pages
                                    table next))) !! company_number c)).
Proof.
  split.
  - intros k c conn Hf Hl. unfold DbFixed.save_company_to_db.
    destruct (save_fault DbFixed.do_update w k c conn) as [n ->]; auto.
    + unfold Pg.succeeds in Hf. destruct (db_fault w k); congruence.
    + eexists. split; [reflexivity|]. split; reflexivity.
  - unfold DbFixed.scrape_and_save.
    destruct (pg_run DbFixed.do_update w DbFixed.parse_company_result
                sectors max_pages table next) as (st & r & -> & A & _ & _ & _ & U & G).
    destruct A as (_ & _ & _ & F & C & K & S). cbn [fst snd].
    split_and!; auto.
    intros Hc Ha. specialize (G Hc Ha). subst r. split; [reflexivity|].
    destruct U as (rest & E & ->). now rewrite E, app_nil_r.
Qed.

(** C7 fails on the code when the connection to the database is lost
    during an upsert: [cur.execute] raises, the handler of
    [save_company_to_db] calls [conn.rollback()], which raises in its
    turn, and no handler of [scrape_and_save] catches that.  The upsert
    raises instead of reporting [False], and the run ends there: of the
    two candidates of the first page none is saved, the second is not
    attempted, and the second sector is not asked for. *)
Theorem lost_connection_ends_the_run :
  snd (DbFixed.save_company_to_db Fixtures.lost_connection_world 0
         Fixtures.acme_no_address_candidate Fixtures.empty_db)
  = Raise InterfaceError
  /\ snd (DbFixed.scrape_and_save Fixtures.lost_connection_world
            ["technology"; "retail"] 2 ∅ 1)
     = Raise InterfaceError
  /\ map (fun r => (req_sector r, req_page r, length (req_companies r)))
       (requests
          (Pg.trace
             (fst (DbFixed.scrape_and_save Fixtures.lost_connection_world
                     ["technology"; "retail"] 2 ∅ 1))))
     = [("technology", 1, 2)]
  /\ saves
       (Pg.trace
          (fst (DbFixed.scrape_and_save Fixtures.lost_connection_world
                  ["technology"; "retail"] 2 ∅ 1)))
     = [].
Proof. split_and!; vm_compute; reflexivity. Qed.

(** statements that fail on a connection that stays open: the first of
    the run at [execute], the next two at [commit].  The run goes through
    both pages and returns; the three upserts are reported as failed and
    the fourth is the one that counts. *)
Example rejected_statements_leave_the_run_going :
  snd (DbFixed.scrape_and_save Fixtures.failing_db_world ["technology"] 2 ∅ 1) = Ok tt
  /\ map (fun s => (company_number (fst s), snd s))
       (saves
          (Pg.trace
             (fst (DbFixed.scrape_and_save Fixtures.failing_db_world
                     ["technology"] 2 ∅ 1))))
     = [("01234567", false); ("00000001", false);
        ("01234567", false); ("00000001", true)]
  /\ Pg.total_saved
       (fst (DbFixed.scrape_and_save Fixtures.failing_db_world ["technology"] 2 ∅ 1))
     = 1.
Proof. split_and!; vm_compute; reflexivity. Qed.

(** what [search_companies] returns, a parser call returned *)
Lemma parse_results_from (parse : Z -> Soup.element -> exc (option company))
    (w : world) (n : nat) (results : list Soup.element) :
  forall (i : nat) (companies : list company),
    parse_results parse w n i results = Ok companies ->
    forall c, In c companies ->
      exists now result, In result results /\ parse now result = Ok (Some c).
Proof.
  induction results as [|r rs IH]; intros i cs H c Hin; simpl in H.
  - injection H as <-. destruct Hin.
  - destruct (parse (clock w n i) r) as [cd|] eqn:E; [|discriminate]. simpl in H.
    destruct (parse_results parse w n (S i) rs) as [cs'|] eqn:E'; [|discriminate].
    simpl in H. injection H as <-.
    assert (Hrest : In c cs' ->
              exists now result, In result (r :: rs) /\ parse now result = Ok (Some c)).
    { intros Hc. destruct (IH _ _ E' c Hc) as (now & result & Hr & Hp).
      exists now, result. split; [now right | exact Hp]. }
    destruct cd as [c0|]; [|now apply Hrest].
    destruct Hin as [<-|Hin]; [|now apply Hrest].
    exists (clock w n i), r. split; [now left | exact E].
Qed.

Lemma search_result_from (parse : Z -> Soup.element -> exc (option company))
    (w : world) (n : nat) (query : string) (page : nat) (c : company) :
  In c (search_result parse w n query page) ->
  exists now result, parse now result = Ok (Some c).
Proof.
  unfold search_result, search_companies, search_body.
  destruct (http w n query page) as [soup|]; simpl; [|intros []].
  destruct (parse_results parse w n 0 _) as [cs|] eqn:E; simpl; [|intros []].
  intros Hin. destruct (parse_results_from _ _ _ _ _ _ E c Hin) as (now & r & _ & Hp).
  eauto.
Qed.

(** C4: a block without a heading link, or whose link href yields no
    identifier, gives no candidate; so every candidate the parser emits
    carries a non-empty registryId, the one its href yields, and so does
    every record the driver hands to the upsert. *)
Theorem parser_requires_registry_id (now : Z) (block : Soup.element) :
  (DbFixed.heading_link block = None -> DbFixed.registry_id block = None)
  /\ (DbFixed.registry_id block = None ->
      DbFixed.parse_company_result now block = Ok None)
  /\ (forall c,
        DbFixed.parse_company_result now block = Ok (Some c) ->
        company_number c <> EmptyString
        /\ DbFixed.registry_id block = Some (company_number c))
  /\ (forall w sectors max_pages table next c ok,
        In (c, ok)
          (saves (Pg.trace
                    (fst (DbFixed.scrape_and_save w sectors max_pages table next)))) ->
        company_number c <> EmptyString).
Proof.
  split; [unfold DbFixed.registry_id; now intros ->|].
  split; [apply fixed_parse_no_id|].
  split; [apply fixed_parse_emits_id|].
  intros w sectors max_pages table next c ok Hin.
  unfold DbFixed.scrape_and_save in Hin.
  destruct (pg_run DbFixed.do_update w DbFixed.parse_company_result
              sectors max_pages table next) as (st & r0 & Hrun & _ & _ & _ & Q & U & _).
  rewrite Hrun in Hin. cbn [fst] in Hin.
  assert (Hc : In c (flat_map handed_on (requests (Pg.trace st)))).
  { destruct U as (rest & -> & _). apply in_or_app. left.
    apply in_map_iff. exists (c, ok). now split. }
  apply in_flat_map in Hc. destruct Hc as (r & Hr & Hc).
  unfold handed_on in Hc. apply in_map_iff in Hc. destruct Hc as (c0 & <- & Hc0).
  rewrite (Q r Hr) in Hc0.
  destruct (search_result_from _ _ _ _ _ _ Hc0) as (now' & result & Hp).
  exact (proj1 (fixed_parse_emits_id now' result c0 Hp)).
Qed.

Lemma parser_requires_registry_id_witness :
  DbFixed.parse_company_result 0 Fixtures.no_detail_link = Ok None
  /\ (exists c, DbFixed.parse_company_result 0 Fixtures.acme = Ok (Some c)
                /\ company_number c <> EmptyString).
Proof.
  split.
  - apply (proj1 (proj2 (parser_requires_registry_id 0 Fixtures.no_detail_link))).
    reflexivity.
  - eexists. split; [reflexivity|].
    apply (proj1 (proj2 (proj2 (parser_requires_registry_id 0 Fixtures.acme)))).
    reflexivity.
Defined.

(** C2, as stated, fails on the driver that upserts: with the same
    company on the first page of two sectors, [scrape_and_save] calls
    the upsert twice for its identifier. *)
Lemma same_id_in_two_sectors_is_upserted_twice :
  snd (DbFixed.scrape_and_save Fixtures.same_page_world ["technology"; "finance"]
         1 ∅ 1) = Ok tt
  /\ upsert_calls "01234567"
       (Pg.trace
          (fst (DbFixed.scrape_and_save Fixtures.same_page_world
                  ["technology"; "finance"] 1 ∅ 1))) = 2
  /\ ~ upsert_calls "01234567"
         (Pg.trace
            (fst (DbFixed.scrape_and_save Fixtures.same_page_world
                    ["technology"; "finance"] 1 ∅ 1))) <= 1.
Proof.
  split; [vm_compute; reflexivity|]. split; [vm_compute; reflexivity|].
  vm_compute. lia.
Qed.

(** C2, amended: the driver that collects ([scrape_companies_by_sector])
    lets each registryId through once in a run: a candidate whose
    identifier was seen is dropped whatever its sector, the collected
    list has no identifier twice, holds only candidates handed to it,
    and has every non-empty identifier handed to it.  The driver that
    upserts ([scrape_and_save], in db_scraper_fixed.py and in
    db_scraper.py) keeps no such index: the upserts it made are the
    candidates of the pages it fetched, in their order and whatever
    their identifiers: all of them when it returned, a first part of
    them when an exception ended it; and it returns when the database
    can be connected to and every statement gets its answer. *)
Theorem dedup_is_in_the_collecting_driver (w : world) (sectors : list string)
    (max_pages : nat) (table : gmap string Pg.row) (next : nat) :
  (forall sector_name c st,
     company_number c ∈ Simple.seen_companies st ->
     Simple.keep_one sector_name c st = st)
  /\ NoDup (map company_number (Simple.scrape_companies_by_sector w sectors max_pages))
  /\ (forall c, In c (Simple.scrape_companies_by_sector w sectors max_pages) ->
        company_number c <> EmptyString
        /\ In c (Simple.handed (Simple.run w sectors max_pages)))
  /\ (forall c, In c (Simple.handed (Simple.run w sectors max_pages)) ->
        company_number c <> EmptyString ->
        In (company_number c)
          (map company_number (Simple.scrape_companies_by_sector w sectors max_pages)))
  /\ Pg.upserted_in_order
       (snd (DbFixed.scrape_and_save w sectors max_pages table next))
       (flat_map handed_on
          (requests
             (Pg.trace (fst (DbFixed.scrape_and_save w sectors max_pages table next)))))
       (Pg.trace (fst (DbFixed.scrape_and_save w sectors max_pages table next)))
  /\ Pg.upserted_in_order
       (snd (Db.scrape_and_save w sectors max_pages table next))
       (flat_map handed_on
          (requests
             (Pg.trace (fst (Db.scrape_and_save w sectors max_pages table next)))))
       (Pg.trace (fst (Db.scrape_and_save w sectors max_pages table next)))
  /\ (db_connects w = true ->
      (forall k, Pg.answers (db_fault w k) = true) ->
      snd (DbFixed.scrape_and_save w sectors max_pages table next) = Ok tt
      /\ snd (Db.scrape_and_save w sectors max_pages table next) = Ok tt).
Proof.
  split; [intros; now apply simple_keep_one_seen|].
  destruct (simple_run_dedup w sectors max_pages) as (H1 & _ & H3 & H4).
  split; [exact H1|]. split; [exact H3|]. split; [exact H4|].
  unfold DbFixed.scrape_and_save, Db.scrape_and_save.
  destruct (pg_run DbFixed.do_update w DbFixed.parse_company_result
              sectors max_pages table next) as (st & r & -> & _ & _ & _ & _ & U & G).
  destruct (pg_run Db.do_update w Db.parse_company_result
              sectors max_pages table next) as (st' & r' & -> & _ & _ & _ & _ & U' & G').
  cbn [fst snd]. split_and!; auto.
Qed.

Lemma dedup_is_in_the_collecting_driver_witness :
  map company_number
    (Simple.scrape_companies_by_sector Fixtures.same_page_world
       ["technology"; "finance"] 2)
  = ["01234567"]
  /\ NoDup (map company_number
              (Simple.scrape_companies_by_sector Fixtures.same_page_world
                 ["technology"; "finance"] 2))
  /\ snd (DbFixed.scrape_and_save Fixtures.same_page_world
            ["technology"; "finance"] 2 ∅ 1) = Ok tt.
Proof.
  split; [reflexivity|].
  destruct (dedup_is_in_the_collecting_driver Fixtures.same_page_world
              ["technology"; "finance"] 2 ∅ 1) as (_ & Hnd & _ & _ & _ & _ & Hret).
  split; [exact Hnd|]. exact (proj1 (Hret eq_refl (fun k => eq_refl))).
Defined.

(** ** The entity type *)

Section EntityType.
Import Soup Patterns.












End EntityType.

(** ** How the earlier variants differ

    db_scraper_fixed.py is the later variant; what it fixed is still
    there in the two earlier ones. *)

(** db_scraper.py sets the address and the postal code from the excluded
    row as they come, so a candidate without them erases what was stored *)
Example db_upsert_erases_address :
  exists stored',
    Pg.committed
      (fst (Db.save_company_to_db Fixtures.same_page_world 0
              Fixtures.acme_no_address_candidate Fixtures.acme_db))
      !! "01234567" = Some stored'
    /\ Pg.addr stored' = None /\ Pg.postal stored' = None.
Proof. eexists. split; [reflexivity|]. split; reflexivity. Qed.

(** simple_scraper.py goes on after a dissolved paragraph, and a later
    [Active] makes the block a candidate *)
Example simple_keeps_restored_block :
  (exists c, Simple.parse_company_result 0 Fixtures.restored = Ok (Some c))
  /\ Db.parse_company_result 0 Fixtures.restored = Ok None
  /\ DbFixed.parse_company_result 0 Fixtures.restored = Ok None.
Proof. split; [eexists; reflexivity|]. split; reflexivity. Qed.

(** db_scraper.py and simple_scraper.py do not check the identifier *)
Example db_emits_candidate_without_id :
  exists c,
    Db.parse_company_result 0 Fixtures.no_detail_link = Ok (Some c)
    /\ Simple.parse_company_result 0 Fixtures.no_detail_link = Ok (Some c)
    /\ company_number c = EmptyString.
Proof. eexists. split; [reflexivity|]. split; reflexivity. Qed.

(** db_scraper.py and simple_scraper.py want an [Active] marker *)
Example earlier_variants_need_active_marker :
  Db.parse_company_result 0 Fixtures.acme = Ok None
  /\ Simple.parse_company_result 0 Fixtures.acme = Ok None
  /\ exists c, DbFixed.parse_company_result 0 Fixtures.acme = Ok (Some c).
Proof. split; [reflexivity|]. split; [reflexivity|]. eexists. reflexivity. Qed.
